(** * NH-RSA citation resolver: a shallow embedding of [app.js]

    The development follows the source file function by function:
    [normalize], [parseRSA], [chapterToken], [inRange], [folderForChapter]
    and [buildUrl].  The two regular expressions of the program are kept
    as regular expressions and run by a small backtracking matcher with
    capture groups, so that each embedded function can be read next to the
    JavaScript it comes from.

    Modelling conventions.
    - A JavaScript string is a [string]: a sequence of code units in the
      range 0..255 (the Latin-1 part of UTF-16).  Case mapping and the
      white space set are the ECMAScript ones on that range.
    - A JavaScript number is a double.  The numbers of the program are
      integers, [NaN] or [Infinity]: a number is the [Z] it stands for,
      every result of [parseInt], [*] and [+] is rounded to the nearest
      double, ties to even ([to_double]), and [Infinity] is the integer
      2^1024, above every double.  Up to 2^53 nothing is rounded, which
      holds for chapters of up to 15 digits and 11 suffix letters
      ([TokenFacts.token_exact]).
    - [throw new Error(msg)] is the left injection of a sum type. *)

From Stdlib Require Import ZArith NArith Ascii String List Bool Lia.
From stdpp Require Import gmap strings.

Local Open Scope N_scope.

(** ** Code units *)

Module Char.

Definition charCode (c : ascii) : N := N_of_ascii c.

Definition between (lo hi : N) (c : ascii) : bool :=
  (lo <=? charCode c) && (charCode c <=? hi).

Definition is_digit : ascii -> bool := between 48 57.
Definition is_upper : ascii -> bool := between 65 90.
Definition is_lower : ascii -> bool := between 97 122.
Definition is_letter (c : ascii) : bool := is_upper c || is_lower c.

(** ECMAScript WhiteSpace and LineTerminator below U+0100: TAB, LF, VT,
    FF, CR, SP and NBSP.  Both [trim] and the class [\s] use this set. *)
Definition is_space (c : ascii) : bool :=
  between 9 13 c || (charCode c =? 32) || (charCode c =? 160).

Definition not_space (c : ascii) : bool := negb (is_space c).

(** [toLowerCase] on one code unit: A-Z, and U+00C0..U+00DE but U+00D7. *)
Definition lower (c : ascii) : ascii :=
  if is_upper c || (between 192 222 c && negb (charCode c =? 215))
  then ascii_of_N (charCode c + 32) else c.

(** [toUpperCase] on one code unit.  U+00DF becomes the two code units
    "SS".  U+00B5 and U+00FF, whose upper case lies above U+00FF, are
    kept: the program only matches an upper-cased string against classes
    of ASCII characters, which neither form belongs to. *)
Definition upper (c : ascii) : string :=
  if is_lower c || (between 224 254 c && negb (charCode c =? 247))
  then String (ascii_of_N (charCode c - 32)) EmptyString
  else if charCode c =? 223 then "SS"
  else String c EmptyString.

(** Canonicalize of a RegExp with the [i] flag and without the [u] flag. *)
Definition canonicalize (c : ascii) : ascii :=
  match upper c with
  | String u EmptyString =>
      if (128 <=? charCode c) && (charCode u <? 128) then c else u
  | _ => c
  end.

End Char.

(** ** String methods *)

Module Str.

Fixpoint toLowerCase (s : string) : string :=
  match s with
  | EmptyString => EmptyString
  | String c s' => String (Char.lower c) (toLowerCase s')
  end.

Fixpoint toUpperCase (s : string) : string :=
  match s with
  | EmptyString => EmptyString
  | String c s' => Char.upper c +:+ toUpperCase s'
  end.

Fixpoint trimStart (s : string) : string :=
  match s with
  | EmptyString => EmptyString
  | String c s' => if Char.is_space c then trimStart s' else s
  end.

Fixpoint trimEnd (s : string) : string :=
  match s with
  | EmptyString => EmptyString
  | String c s' =>
      match trimEnd s' with
      | EmptyString => if Char.is_space c then EmptyString else String c EmptyString
      | t => String c t
      end
  end.

Definition trim (s : string) : string := trimEnd (trimStart s).

(** [s.replace(/\s+/g, "")]: every maximal run of white space is replaced
    by the empty string, one code unit of the run after the other. *)
Fixpoint remove_space_runs (s : string) : string :=
  match s with
  | EmptyString => EmptyString
  | String c s' =>
      if Char.is_space c then remove_space_runs s'
      else String c (remove_space_runs s')
  end.

Definition startsWith (s p : string) : bool := String.prefix p s.

(** [s.slice(n)] for a non-negative [n]. *)
Fixpoint slice (s : string) (n : nat) : string :=
  match n, s with
  | O, _ => s
  | S _, EmptyString => EmptyString
  | S n', String _ s' => slice s' n'
  end.

(** [s.substring(0, n)] *)
Fixpoint take (n : nat) (s : string) : string :=
  match n, s with
  | O, _ => EmptyString
  | S _, EmptyString => EmptyString
  | S n', String c s' => String c (take n' s')
  end.

Fixpoint all (p : ascii -> bool) (s : string) : bool :=
  match s with
  | EmptyString => true
  | String c s' => p c && all p s'
  end.

Fixpoint dropWhile (p : ascii -> bool) (s : string) : string :=
  match s with
  | EmptyString => EmptyString
  | String c s' => if p c then dropWhile p s' else s
  end.

Fixpoint takeWhile (p : ascii -> bool) (s : string) : string :=
  match s with
  | EmptyString => EmptyString
  | String c s' => if p c then String c (takeWhile p s') else EmptyString
  end.

Definition is_empty (s : string) : bool :=
  match s with EmptyString => true | _ => false end.

Fixpoint last (s : string) : option ascii :=
  match s with
  | EmptyString => None
  | String c EmptyString => Some c
  | String _ s' => last s'
  end.

(** [s] does not end with a code unit of [p]. *)
Definition ends_off (p : ascii -> bool) (s : string) : Prop :=
  match last s with
  | None => True
  | Some c => p c = false
  end.

(** [s] does not start with a code unit of [p]. *)
Definition stops (p : ascii -> bool) (s : string) : Prop :=
  match s with
  | EmptyString => True
  | String c _ => p c = false
  end.

End Str.

(** ** Regular expressions

    The fragment of ECMAScript regular expressions the program uses:
    the assertions [^] and [$], character classes, concatenation, the
    greedy quantifiers [?] and [+] (the latter only ever applied to a
    class), and capture groups. *)

Module Regex.

Inductive item : Type :=
| One (c : ascii)
| Range (lo hi : ascii).

Definition class : Type := list item.

Inductive regex : Type :=
| Bol
| Eol
| Cls (cs : class)
| Seq (r1 r2 : regex)
| Opt (r : regex)
| Plus (cs : class)
| Group (n : nat) (r : regex).

Definition item_has (c : ascii) (i : item) : bool :=
  match i with
  | One a => Ascii.eqb a c
  | Range lo hi => Char.between (Char.charCode lo) (Char.charCode hi) c
  end.

Definition members (i : item) : list ascii :=
  match i with
  | One a => a :: nil
  | Range lo hi =>
      map ascii_of_nat
        (seq (nat_of_ascii lo) (S (nat_of_ascii hi) - nat_of_ascii lo))
  end.

(** CharacterSetMatcher: without the [i] flag the code unit must belong
    to the class; with it, some member of the class must have the same
    canonical form as the code unit. *)
Definition class_has (ignoreCase : bool) (cs : class) (c : ascii) : bool :=
  if ignoreCase
  then existsb (fun a => Ascii.eqb (Char.canonicalize a) (Char.canonicalize c))
               (flat_map members cs)
  else existsb (item_has c) cs.

Abbreviation captures := (gmap nat string).
Definition cont : Type := string -> captures -> option captures.

(** The iterations of a greedy [+] after the first one: take one more
    code unit when possible, and give it back when the rest fails. *)
Fixpoint plus_more (p : ascii -> bool) (k : string -> option captures)
    (s : string) : option captures :=
  match s with
  | String c s' =>
      if p c then
        match plus_more p k s' with
        | Some r => Some r
        | None => k s
        end
      else k s
  | EmptyString => k s
  end.

Section Matcher.
Variable ignoreCase : bool.
Variable input : string.

(** [run r k s caps]: match [r] at the suffix [s] of [input], then
    continue with [k]; [None] is failure, which makes the caller
    backtrack. *)
Fixpoint run (r : regex) (k : cont) (s : string) (caps : captures)
    : option captures :=
  match r with
  | Bol => if Nat.eqb (String.length s) (String.length input)
           then k s caps else None
  | Eol => match s with EmptyString => k s caps | _ => None end
  | Cls cs =>
      match s with
      | String c s' => if class_has ignoreCase cs c then k s' caps else None
      | EmptyString => None
      end
  | Seq r1 r2 => run r1 (run r2 k) s caps
  | Opt r1 =>
      match run r1 k s caps with
      | Some res => Some res
      | None => k s caps
      end
  | Plus cs =>
      match s with
      | String c s' =>
          if class_has ignoreCase cs c
          then plus_more (class_has ignoreCase cs) (fun t => k t caps) s'
          else None
      | EmptyString => None
      end
  | Group n r1 =>
      run r1
        (fun t caps' =>
           k t (<[n := Str.take (String.length s - String.length t) s]> caps'))
        s caps
  end.

(** Try the start positions from left to right. *)
Fixpoint exec_from (r : regex) (s : string) : option captures :=
  match run r (fun _ caps => Some caps) s ∅ with
  | Some caps => Some caps
  | None =>
      match s with
      | String _ s' => exec_from r s'
      | EmptyString => None
      end
  end.

End Matcher.

(** [input.match(r)] for a regular expression without the [g] flag. *)
Definition exec (ignoreCase : bool) (r : regex) (input : string)
    : option captures :=
  exec_from ignoreCase input r input.

Definition digit : class := Range "0" "9" :: nil.

End Regex.

(** ** Values, numbers and exceptions *)

Local Open Scope Z_scope.

(** The values that reach the program where a string is expected: a
    string, [null] or [undefined]. *)
Inductive jsval : Type :=
| JUndefined
| JNull
| JStr (s : string).

Definition truthy (v : jsval) : bool :=
  match v with
  | JStr s => negb (Str.is_empty s)
  | _ => false
  end.

(** ToString, as applied by template literals and by [parseInt]. *)
Definition to_string (v : jsval) : string :=
  match v with
  | JUndefined => "undefined"
  | JNull => "null"
  | JStr s => s
  end.

(** [v || ""] *)
Definition or_empty (v : jsval) : jsval :=
  if truthy v then v else JStr "".

(** [Infinity], as an integer above every double. *)
Definition INFINITY : Z := 2 ^ 1024.

(** The double nearest to a non-negative integer: an integer up to 2^53
    is a double; above, the 53 leading bits are kept and the rest is
    rounded to nearest, ties to the even significand; what rounds to
    2^1024 or more is [Infinity]. *)
Definition round_magnitude (m : Z) : Z :=
  if m <=? 2 ^ 53 then m
  else
    let e := Z.log2 m - 52 in
    let q := m / 2 ^ e in
    let r := m mod 2 ^ e in
    let half := 2 ^ (e - 1) in
    let q' := if (half <? r) || ((r =? half) && Z.odd q) then q + 1 else q in
    let x := q' * 2 ^ e in
    if INFINITY <=? x then INFINITY else x.

(** The Number value of a mathematical integer. *)
Definition to_double (z : Z) : Z := Z.sgn z * round_magnitude (Z.abs z).

Inductive number : Type :=
| NaN
| Num (z : Z).

Definition num_lt (a b : number) : bool :=
  match a, b with
  | Num x, Num y => x <? y
  | _, _ => false
  end.

Definition num_eq (a b : number) : bool :=
  match a, b with
  | Num x, Num y => x =? y
  | _, _ => false
  end.

Inductive exn : Type :=
| Error (message : string)
| TypeError.

Definition result (A : Type) : Type := exn + A.
Definition Ok {A : Type} (a : A) : result A := inr a.
Definition throw {A : Type} (e : exn) : result A := inl e.

Definition bind {A B : Type} (m : result A) (f : A -> result B) : result B :=
  match m with
  | inl e => inl e
  | inr a => f a
  end.

Notation "x <- m ;; k" := (bind m (fun x => k))
  (at level 100, m at next level, right associativity).

(** A string method called on a value: a [TypeError] unless the receiver
    is a string. *)
Definition method {A : Type} (v : jsval) (f : string -> A) : result A :=
  match v with
  | JStr s => Ok (f s)
  | _ => throw TypeError
  end.

(** [m[n]] on a match result: a group that took no part is [undefined]. *)
Definition group (m : Regex.captures) (n : nat) : jsval :=
  match m !! n with
  | Some s => JStr s
  | None => JUndefined
  end.

Fixpoint digits_value (acc : Z) (s : string) : Z :=
  match s with
  | EmptyString => acc
  | String c s' => digits_value (acc * 10 + (Z.of_N (Char.charCode c) - 48)) s'
  end.

(** [parseInt(v, 10)]: leading white space and one sign are skipped, the
    longest run of decimal digits is read, and no digit at all is [NaN];
    the result is the Number value of the integer read.  (ECMAScript
    lets an engine replace the digits after the 20th by zeros before it
    rounds; the engines in use read them all.) *)
Definition parseInt10 (v : jsval) : number :=
  let s := Str.trimStart (to_string v) in
  let '(sign, s) :=
    match s with
    | String c t =>
        if Ascii.eqb c "-" then (-1, t)
        else if Ascii.eqb c "+" then (1, t)
        else (1, s)
    | EmptyString => (1, s)
    end in
  let ds := Str.takeWhile Char.is_digit s in
  if Str.is_empty ds then NaN else Num (to_double (sign * digits_value 0 ds)).

(** ** The program *)

Import Regex.

Definition BASE : string := "https://gc.nh.gov/rsa/html".

Definition normalize (s : jsval) : result string :=
  method (or_empty s)
    (fun t => Str.remove_space_runs (Str.toLowerCase (Str.trim t))).

(** [/^(\d+(?:-[a-z])?)(?::([0-9a-z-]+))?$/i] *)
Definition rsa_re : regex :=
  Seq Bol
    (Seq (Group 1 (Seq (Plus digit)
                       (Opt (Seq (Cls (One "-" :: nil))
                                 (Cls (Range "a" "z" :: nil))))))
         (Seq (Opt (Seq (Cls (One ":" :: nil))
                        (Group 2 (Plus (Range "0" "9" :: Range "a" "z"
                                          :: One "-" :: nil)))))
              Eol)).

Record citation : Type := { chapter : string; section : jsval }.

Definition ParseError : exn :=
  Error "Could not parse. Try '225-A:24' or 'RSA 225-A'.".

(** [if (s.startsWith("rsa")) s = s.slice(3);] *)
Definition strip_rsa (s : string) : string :=
  if Str.startsWith s "rsa" then Str.slice s 3 else s.

Definition parseRSA (input : jsval) : result citation :=
  s <- normalize input ;;
  let s := strip_rsa s in
  match exec true rsa_re s with
  | None => throw ParseError
  | Some m =>
      ch <- method (group m 1) Str.toLowerCase ;;
      sec <- (if truthy (group m 2)
              then s2 <- method (group m 2) Str.toLowerCase ;; Ok (JStr s2)
              else Ok JNull) ;;
      Ok {| chapter := ch; section := sec |}
  end.

(** [/^(\d+)(?:-([A-Z]+))?$/] *)
Definition chapter_re : regex :=
  Seq Bol
    (Seq (Group 1 (Plus digit))
         (Seq (Opt (Seq (Cls (One "-" :: nil))
                        (Group 2 (Plus (Range "A" "Z" :: nil)))))
              Eol)).

Definition BadChapterFormat (ch : string) : exn :=
  Error ("Bad chapter format: " +:+ ch).

Definition token : Type := number * Z.

(** The loop [for (const c of suf) n = n * 26 + (c.charCodeAt(0) - 64)]:
    the product is a double, and so is the sum. *)
Fixpoint suffix_loop (n : Z) (suf : string) : Z :=
  match suf with
  | EmptyString => n
  | String c suf' =>
      suffix_loop
        (to_double (to_double (n * 26) + (Z.of_N (Char.charCode c) - 64)))
        suf'
  end.

Definition chapterToken (ch : string) : result token :=
  match exec false chapter_re (Str.toUpperCase ch) with
  | None => throw (BadChapterFormat ch)
  | Some m =>
      let base := parseInt10 (group m 1) in
      let suf := or_empty (group m 2) in
      let n := suffix_loop 0 (to_string suf) in
      Ok (base, n)
  end.

(** The comparison [a[0] < x[0] || (a[0] === x[0] && a[1] <= x[1])]. *)
Definition token_le (a x : token) : bool :=
  num_lt (fst a) (fst x) || (num_eq (fst a) (fst x) && (snd a <=? snd x)).

Definition inRange (ch start end_ : string) : result bool :=
  x <- chapterToken ch ;;
  a <- chapterToken start ;;
  b <- chapterToken end_ ;;
  Ok (token_le a x && token_le x b).

Record title_range : Type :=
  { start : string; end_ : string; folder : jsval }.

(** The mapping JSON, in the shape of its documentation: an object whose
    [title_ranges], when present, is a list of entries with string
    bounds.  A missing member is [None].  [chapter_to_title] is looked up
    by own keys: this is what the code does for a key that is present,
    and for every chapter that is not the name of an inherited property
    of an object ([constructor], [toString], ...), so for every chapter
    that starts with a digit. *)
Record payload : Type :=
  { chapter_to_title : option (gmap string jsval);
    title_ranges : option (list title_range) }.

(** [payload.chapter_to_title?.[chapter]] *)
Definition direct_lookup (chapter : string) (p : payload) : jsval :=
  match chapter_to_title p with
  | Some m => default JUndefined (m !! chapter)
  | None => JUndefined
  end.

(** The [for ... of] loop of [folderForChapter] and the [return null]
    after it. *)
Fixpoint scan_ranges (chapter : string) (trs : list title_range)
    : result jsval :=
  match trs with
  | nil => Ok JNull
  | tr :: rest =>
      hit <- inRange chapter (Str.toLowerCase (start tr))
                             (Str.toLowerCase (end_ tr)) ;;
      if hit then Ok (folder tr) else scan_ranges chapter rest
  end.

Definition folderForChapter (chapter : string) (p : payload) : result jsval :=
  let direct := direct_lookup chapter p in
  if truthy direct then Ok direct
  else scan_ranges chapter (default nil (title_ranges p)).

Definition MissingFolder (chapter : string) : exn :=
  Error ("Could not determine title folder for chapter " +:+ chapter).

Definition buildUrl (chapter : string) (section folder : jsval)
    : result string :=
  if negb (truthy folder) then throw (MissingFolder chapter)
  else if truthy section then
    Ok (BASE +:+ "/" +:+ to_string folder +:+ "/" +:+ chapter +:+ "/"
          +:+ chapter +:+ "-" +:+ to_string section +:+ ".htm")
  else
    Ok (BASE +:+ "/" +:+ to_string folder +:+ "/" +:+ chapter +:+ "/"
          +:+ chapter +:+ "-mrg.htm").

(** The [try] block of [go], given the text of the input field and the
    mapping that [loadMapping] returned. *)
Definition resolve (input : jsval) (p : payload) : result string :=
  c <- parseRSA input ;;
  f <- folderForChapter (chapter c) p ;;
  buildUrl (chapter c) (section c) f.


(** ** The grammar of citations and the value of a token, as specified *)

Module Spec.

Definition digits (ds : string) : bool :=
  negb (Str.is_empty ds) && Str.all Char.is_digit ds.

(** A suffix of one or more letters. *)
Definition letters (suf : string) : bool :=
  negb (Str.is_empty suf) && Str.all Char.is_letter suf.

(** A suffix of exactly one letter. *)
Definition one_letter (suf : string) : bool :=
  match suf with
  | String l EmptyString => Char.is_letter l
  | _ => false
  end.

Definition is_section_char (c : ascii) : bool :=
  Char.is_digit c || Char.is_letter c || Ascii.eqb c "-".

Definition is_section (sec : string) : bool :=
  negb (Str.is_empty sec) && Str.all is_section_char sec.

Section Grammar.
(** What may follow the hyphen of a chapter. *)
Variable suffix_ok : string -> bool.

(** chapter := digits ("-" suffix)? *)
Inductive is_chapter : string -> Prop :=
| chapter_plain ds :
    digits ds = true -> is_chapter ds
| chapter_suffixed ds suf :
    digits ds = true -> suffix_ok suf = true ->
    is_chapter (ds +:+ "-" +:+ suf).

(** citation := chapter (":" section)?, with nothing before or after. *)
Inductive is_citation : string -> string -> option string -> Prop :=
| citation_chapter ch :
    is_chapter ch -> is_citation ch ch None
| citation_section ch sec :
    is_chapter ch -> is_section sec = true ->
    is_citation (ch +:+ ":" +:+ sec) ch (Some sec).
End Grammar.

(** The citation record for a chapter and an optional section. *)
Definition cite (ch : string) (sec : option string) : citation :=
  {| chapter := Str.toLowerCase ch;
     section := match sec with
                | Some s => JStr (Str.toLowerCase s)
                | None => JNull
                end |}.

(** The value of a run of decimal digits, digit by power of ten. *)
Definition digit_value (c : ascii) : Z :=
  match Ascii.is_nat c with
  | Some d => Z.of_nat d
  | None => 0
  end.

Fixpoint decimal_value (ds : string) : Z :=
  match ds with
  | EmptyString => 0
  | String d rest =>
      digit_value d * 10 ^ Z.of_nat (String.length rest) + decimal_value rest
  end.

(** The position of a letter in the alphabet, 1 for a or A and 26 for z
    or Z. *)
Fixpoint position_in (alphabet : string) (c : ascii) : option Z :=
  match alphabet with
  | EmptyString => None
  | String a rest =>
      if Ascii.eqb a c then Some 1
      else option_map Z.succ (position_in rest c)
  end.

Definition letter_position (c : ascii) : Z :=
  match position_in "abcdefghijklmnopqrstuvwxyz" c,
        position_in "ABCDEFGHIJKLMNOPQRSTUVWXYZ" c with
  | Some n, _ => n
  | None, Some n => n
  | None, None => 0
  end.

(** acc = acc * 26 + letterPosition, from 0, over the letters in order. *)
Definition suffix_ordinal (suf : string) : Z :=
  fold_left (fun acc l => acc * 26 + letter_position l)
            (list_ascii_of_string suf) 0.

(** The chapter string with the given digits and suffix letters, none
    when [suf] is empty. *)
Definition chapter_string (ds suf : string) : string :=
  if Str.is_empty suf then ds else ds +:+ "-" +:+ suf.

End Spec.

(** A valid chapter string: digits, optionally followed by a hyphen and
    letters of either case. *)
Definition valid_chapter : string -> Prop := Spec.is_chapter Spec.letters.

(** The order on chapter strings that [inRange] compares with, and its
    strict part. *)
Definition token_lt (a b : token) : bool := token_le a b && negb (token_le b a).

Definition chapter_le (c1 c2 : string) : Prop :=
  exists t1 t2, chapterToken c1 = Ok t1 /\ chapterToken c2 = Ok t2 /\
                token_le t1 t2 = true.

Definition chapter_lt (c1 c2 : string) : Prop :=
  exists t1 t2, chapterToken c1 = Ok t1 /\ chapterToken c2 = Ok t2 /\
                token_lt t1 t2 = true.

(** Whether the range of an entry contains the chapter. *)
Definition range_contains (chapter : string) (tr : title_range) : bool :=
  match inRange chapter (Str.toLowerCase (start tr)) (Str.toLowerCase (end_ tr)) with
  | inr true => true
  | _ => false
  end.

Definition range_wf (tr : title_range) : Prop :=
  valid_chapter (start tr) /\ valid_chapter (end_ tr).

Definition nullish (v : jsval) : Prop := v = JNull \/ v = JUndefined.

(** The mapping of the scenarios of the specification. *)
Definition scenario_mapping : payload :=
  {| chapter_to_title := Some {[ "540-a" := JStr "title18" ]};
     title_ranges :=
       Some ({| start := "260"; end_ := "265"; folder := JStr "title20" |}
             :: nil) |}.

(** The largest integer up to which every integer is a JavaScript
    number. *)
Definition MAX_SAFE_INTEGER : Z := 2 ^ 53 - 1.

(** ** What the two patterns match, read off the patterns *)

Module Direct.

(** After the chapter: the end, or a separator and a non-empty run of
    [p] up to the end.  The result is the text of group 2, if any. *)
Definition tail_split (sep : ascii) (p : ascii -> bool) (t : string)
    : option (option string) :=
  match t with
  | EmptyString => Some None
  | String c r =>
      if Ascii.eqb c sep && negb (Str.is_empty r) && Str.all p r
      then Some (Some r) else None
  end.

(** [rsa_re]: a run of digits, then a hyphen and a letter if there are
    any, then either the end or a colon and section characters up to
    the end.  The result is the text of groups 1 and 2. *)
Definition rsa_split (s : string) : option (string * option string) :=
  let ds := Str.takeWhile Char.is_digit s in
  let r1 := Str.dropWhile Char.is_digit s in
  if Str.is_empty ds then None
  else
    let '(ch, r2) :=
      match r1 with
      | String c (String l r) =>
          if Ascii.eqb c "-" && Char.is_letter l
          then (ds +:+ String c (String l ""), r)
          else (ds, r1)
      | _ => (ds, r1)
      end in
    option_map (pair ch) (tail_split ":" Spec.is_section_char r2).

(** [chapter_re]: a run of digits, then either the end or a hyphen and
    upper-case letters up to the end. *)
Definition chapter_split (u : string) : option (string * option string) :=
  let ds := Str.takeWhile Char.is_digit u in
  let r1 := Str.dropWhile Char.is_digit u in
  if Str.is_empty ds then None
  else option_map (pair ds) (tail_split "-" Char.is_upper r1).

Definition add_group2 (caps : captures) (g2 : option string) : captures :=
  match g2 with
  | None => caps
  | Some t => <[2%nat := t]> caps
  end.

Definition caps_of (x : string * option string) : captures :=
  add_group2 (<[1%nat := fst x]> ∅) (snd x).

End Direct.

(** ** The rest of the program: [loadMapping], [go] and the key handler *)

(** What the environment does when [loadMapping] runs: [fetch] rejects
    with an error, or it resolves to a response with its [ok] flag and the
    outcome of [r.json()]. *)
Inductive fetch_outcome : Type :=
| Rejected (e : exn)
| Response (ok : bool) (json : result payload).

Definition MappingLoadError : exn := Error "Could not load mapping JSON.".

Definition loadMapping (o : fetch_outcome) : result payload :=
  match o with
  | Rejected e => throw e
  | Response ok json => if negb ok then throw MappingLoadError else json
  end.

(** What one run of [go] does to the page, in order. *)
Inductive effect : Type :=
| SetText (s : string)
| SetHtml (s : string)
| Fetch
| Open (url target : string).

Definition dquote : string := String "034" EmptyString.

(** The template literal that [go] assigns to [out.innerHTML]. *)
Definition link_html (url : string) : string :=
  "Opening: <a href=" +:+ dquote +:+ url +:+ dquote
    +:+ " target=" +:+ dquote +:+ "_blank" +:+ dquote
    +:+ " rel=" +:+ dquote +:+ "noreferrer" +:+ dquote
    +:+ ">" +:+ url +:+ "</a>".

Section Page.

(** The message of a [TypeError] is the engine's. *)
Variable type_error_message : string.

(** [e.message || String(e)] *)
Definition error_text (e : exn) : string :=
  match e with
  | Error m => if Str.is_empty m then "Error" else m
  | TypeError =>
      if Str.is_empty type_error_message then "TypeError"
      else type_error_message
  end.

(** One run of [go], for the text of the input field and the outcome of
    the fetch, should it take place. *)
Definition go (value : string) (o : fetch_outcome) : list effect :=
  SetText "" ::
  match parseRSA (JStr value) with
  | inl e => SetText (error_text e) :: nil
  | inr c =>
      Fetch ::
      match (p <- loadMapping o ;;
             f <- folderForChapter (chapter c) p ;;
             buildUrl (chapter c) (section c) f) with
      | inl e => SetText (error_text e) :: nil
      | inr url => SetHtml (link_html url) :: Open url "_blank" :: nil
      end
  end.

(** The [keydown] listener of the input field. *)
Definition on_keydown (key value : string) (o : fetch_outcome)
    : list effect :=
  if String.eqb key "Enter" then go value o else nil.

End Page.

(** ** Further notions for the properties of the program *)

(** The text of a citation: the chapter, then a colon and the section if
    there is one. *)
Definition citation_text (c : citation) : string :=
  chapter c +:+ match section c with
                | JStr s => ":" +:+ s
                | _ => ""
                end.

(** The characters of a parsed chapter or section. *)
Definition is_url_char (c : ascii) : bool :=
  Char.is_digit c || Char.is_lower c || Ascii.eqb c "-".

(** The first code unit is a digit: such a string is not the name of an
    inherited property of an object. *)
Definition starts_with_digit (s : string) : bool :=
  match s with
  | String c _ => Char.is_digit c
  | EmptyString => false
  end.

(** One turn of the loop of [chapterToken] on a letter. *)
Definition step (acc : Z) (l : ascii) : Z := acc * 26 + Spec.letter_position l.

(** The characters of the text of a parsed citation. *)
Definition is_text_char (c : ascii) : bool := is_url_char c || Ascii.eqb c ":".

(** The bounds of the ranges, as [folderForChapter] passes them to
    [inRange]. *)
Definition range_bounds (trs : list title_range) : list string :=
  flat_map (fun tr => Str.toLowerCase (start tr)
                        :: Str.toLowerCase (end_ tr) :: nil) trs.

(** * Proofs *)

#[local] Arguments String.append : simpl nomatch.

(** ** Facts on code units, by inspection of the 256 of them *)

Ltac each_char c :=
  destruct c as [[] [] [] [] [] [] [] []]; vm_compute;
  solve [ reflexivity | congruence | intuition congruence ].

Module CharFacts.
Import Char.

Lemma class_digit b c : class_has b digit c = is_digit c.
Proof. destruct b; each_char c. Qed.

Lemma class_dash b c : class_has b (One "-" :: nil) c = Ascii.eqb c "-".
Proof. destruct b; each_char c. Qed.

Lemma class_colon b c : class_has b (One ":" :: nil) c = Ascii.eqb c ":".
Proof. destruct b; each_char c. Qed.

Lemma class_az_i c : class_has true (Range "a" "z" :: nil) c = is_letter c.
Proof. each_char c. Qed.

Lemma class_AZ c : class_has false (Range "A" "Z" :: nil) c = is_upper c.
Proof. each_char c. Qed.

Lemma class_section_i c :
  class_has true (Range "0" "9" :: Range "a" "z" :: One "-" :: nil) c
  = Spec.is_section_char c.
Proof. each_char c. Qed.

Lemma digit_not_dash c : is_digit c = true -> Ascii.eqb c "-" = false.
Proof. each_char c. Qed.

Lemma digit_not_colon c : is_digit c = true -> Ascii.eqb c ":" = false.
Proof. each_char c. Qed.

Lemma digit_not_space c : is_digit c = true -> is_space c = false.
Proof. each_char c. Qed.

Lemma digit_not_plus c : is_digit c = true -> Ascii.eqb c "+" = false.
Proof. each_char c. Qed.

Lemma letter_not_colon c : is_letter c = true -> Ascii.eqb c ":" = false.
Proof. each_char c. Qed.

Lemma lower_digit c : is_digit c = true -> lower c = c.
Proof. each_char c. Qed.

Lemma upper_digit c : is_digit c = true -> upper c = String c EmptyString.
Proof. each_char c. Qed.

Lemma lower_letter c : is_letter c = true -> is_lower (lower c) = true.
Proof. each_char c. Qed.

Lemma lower_idem c : lower (lower c) = lower c.
Proof. each_char c. Qed.

Lemma lower_space c : is_space (lower c) = is_space c.
Proof. each_char c. Qed.

Lemma lower_is_letter c : is_lower c = true -> is_letter c = true.
Proof. each_char c. Qed.

(** The code's [charCodeAt(0) - 64] on the upper-cased letter is the
    position of the letter in the alphabet. *)
Lemma upper_letter_bool c :
  is_letter c = true ->
  match upper c with
  | String u EmptyString =>
      is_upper u && (Z.of_N (charCode u) - 64 =? Spec.letter_position c)%Z
  | _ => false
  end = true.
Proof. each_char c. Qed.

Lemma upper_letter c :
  is_letter c = true ->
  exists u, upper c = String u EmptyString /\ is_upper u = true /\
            (Z.of_N (charCode u) - 64 = Spec.letter_position c)%Z.
Proof.
  intros H. apply upper_letter_bool in H.
  destruct (upper c) as [|u [|]]; try discriminate H.
  apply andb_true_iff in H as [Hu Hp]. apply Z.eqb_eq in Hp. eauto.
Qed.

Lemma digit_value_range c :
  is_digit c = true ->
  ((0 <=? Spec.digit_value c) && (Spec.digit_value c <=? 9))%Z = true.
Proof. each_char c. Qed.

Lemma letter_position_range c :
  is_letter c = true ->
  ((1 <=? Spec.letter_position c) && (Spec.letter_position c <=? 26))%Z = true.
Proof. each_char c. Qed.

Lemma digit_code c :
  is_digit c = true -> Z.of_N (charCode c) - 48 = Spec.digit_value c.
Proof. each_char c. Qed.

End CharFacts.

(** ** Facts on strings *)

Module StrFacts.
Import Str.

Lemma app_nil_r s : s +:+ "" = s.
Proof. induction s; simpl; congruence. Qed.

Lemma app_assoc a b c : (a +:+ b) +:+ c = a +:+ b +:+ c.
Proof. induction a; simpl; congruence. Qed.

Lemma length_app a b :
  String.length (a +:+ b) = (String.length a + String.length b)%nat.
Proof. induction a; simpl; congruence. Qed.

Lemma take_app a b :
  take (String.length (a +:+ b) - String.length b) (a +:+ b) = a.
Proof.
  rewrite length_app, Nat.add_sub.
  induction a; simpl; [destruct b; reflexivity | congruence].
Qed.

Lemma take_full s : take (String.length s) s = s.
Proof. induction s; simpl; congruence. Qed.

Lemma all_ext p q s : (forall c, p c = q c) -> all p s = all q s.
Proof. intros E. induction s; simpl; [|rewrite E]; congruence. Qed.

Lemma dropWhile_ext p q s :
  (forall c, p c = q c) -> dropWhile p s = dropWhile q s.
Proof. intros E. induction s; simpl; [|rewrite E, IHs]; reflexivity. Qed.

Lemma take_prefix a b s :
  s = a +:+ b -> take (String.length s - String.length b) s = a.
Proof. intros ->. apply take_app. Qed.

Lemma take_dropWhile p s :
  take (String.length s - String.length (dropWhile p s)) s = takeWhile p s.
Proof.
  induction s as [|c s IH]; simpl; [reflexivity|].
  destruct (p c); simpl.
  - assert (String.length (dropWhile p s) <= String.length s)%nat.
    { clear. induction s as [|d s IH]; simpl; [lia|].
      destruct (p d); simpl; lia. }
    rewrite Nat.sub_succ_l by assumption. simpl. congruence.
  - rewrite Nat.sub_diag. reflexivity.
Qed.

Lemma takeWhile_dropWhile p s : takeWhile p s +:+ dropWhile p s = s.
Proof. induction s as [|c s IH]; simpl; [|destruct (p c); simpl]; congruence. Qed.

Lemma all_takeWhile p s : all p (takeWhile p s) = true.
Proof.
  induction s as [|c s IH]; simpl; [reflexivity|].
  destruct (p c) eqn:E; simpl; [rewrite E|]; auto.
Qed.

Lemma all_app_eq p a b : all p (a +:+ b) = all p a && all p b.
Proof. induction a; simpl; [|rewrite IHa, andb_assoc]; reflexivity. Qed.

Lemma takeWhile_app p a b :
  all p a = true -> stops p b -> takeWhile p (a +:+ b) = a.
Proof.
  induction a as [|c a IH]; simpl; intros Ha Hb.
  - destruct b; simpl in *; [reflexivity | now rewrite Hb].
  - apply andb_true_iff in Ha as [-> Ha]. f_equal. auto.
Qed.

Lemma dropWhile_app p a b :
  all p a = true -> stops p b -> dropWhile p (a +:+ b) = b.
Proof.
  induction a as [|c a IH]; simpl; intros Ha Hb.
  - destruct b; simpl in *; [reflexivity | now rewrite Hb].
  - apply andb_true_iff in Ha as [-> Ha]. auto.
Qed.

Lemma dropWhile_empty p s : dropWhile p s = "" <-> all p s = true.
Proof.
  induction s as [|c s IH]; simpl; [tauto|].
  destruct (p c); simpl; [assumption | split; discriminate].
Qed.

Lemma toLowerCase_app a b :
  toLowerCase (a +:+ b) = toLowerCase a +:+ toLowerCase b.
Proof. induction a; simpl; congruence. Qed.

Lemma toUpperCase_app a b :
  toUpperCase (a +:+ b) = toUpperCase a +:+ toUpperCase b.
Proof. induction a; simpl; [|rewrite IHa, app_assoc]; reflexivity. Qed.

Lemma toLowerCase_digits ds :
  all Char.is_digit ds = true -> toLowerCase ds = ds.
Proof.
  induction ds as [|c ds IH]; simpl; [reflexivity|].
  intros [Hc Hds]%andb_true_iff.
  now rewrite CharFacts.lower_digit, IH.
Qed.

Lemma toUpperCase_digits ds :
  all Char.is_digit ds = true -> toUpperCase ds = ds.
Proof.
  induction ds as [|c ds IH]; simpl; [reflexivity|].
  intros [Hc Hds]%andb_true_iff.
  now rewrite CharFacts.upper_digit, IH.
Qed.

Lemma toLowerCase_idem s : toLowerCase (toLowerCase s) = toLowerCase s.
Proof. induction s; simpl; [|rewrite CharFacts.lower_idem]; congruence. Qed.

Lemma toLowerCase_letters s :
  all Char.is_letter s = true -> all Char.is_letter (toLowerCase s) = true.
Proof.
  induction s as [|c s IH]; simpl; [reflexivity|].
  intros [Hc Hs]%andb_true_iff.
  rewrite (CharFacts.lower_is_letter _ (CharFacts.lower_letter _ Hc)). auto.
Qed.

Lemma is_empty_toLowerCase s : is_empty (toLowerCase s) = is_empty s.
Proof. destruct s; reflexivity. Qed.

End StrFacts.

(** ** Facts on the matcher *)

Module RegexFacts.

(** A greedy [+] whose continuation fails in front of every code unit
    of the class takes the whole run. *)
Lemma plus_more_greedy p k s :
  (forall c t, p c = true -> k (String c t) = None) ->
  plus_more p k s = k (Str.dropWhile p s).
Proof.
  intros Hk. induction s as [|c s IH]; simpl; [reflexivity|].
  destruct (p c) eqn:E; [|reflexivity].
  rewrite IH. destruct (k (Str.dropWhile p s)); [reflexivity|].
  now apply Hk.
Qed.

Lemma run_bol ignoreCase input r k s caps :
  run ignoreCase input (Seq Bol r) k s caps
  = if Nat.eqb (String.length s) (String.length input)
    then run ignoreCase input r k s caps else None.
Proof. reflexivity. Qed.

Lemma exec_from_eq ignoreCase input r s :
  exec_from ignoreCase input r s
  = match run ignoreCase input r (fun _ caps => Some caps) s ∅ with
    | Some caps => Some caps
    | None =>
        match s with
        | String _ s' => exec_from ignoreCase input r s'
        | EmptyString => None
        end
    end.
Proof. destruct s; reflexivity. Qed.

Lemma exec_from_short ignoreCase input r s :
  (String.length s < String.length input)%nat ->
  exec_from ignoreCase input (Seq Bol r) s = None.
Proof.
  induction s as [|c s IH]; intros Hlt; rewrite exec_from_eq, run_bol;
    (replace (Nat.eqb _ _) with false by (symmetry; apply Nat.eqb_neq; lia));
    [reflexivity|].
  apply IH. simpl in Hlt. lia.
Qed.

Section Equations.
Variable i : bool.
Variable input : string.
Implicit Types (r : regex) (k : cont) (s : string) (caps : captures).

Lemma run_seq r1 r2 k s caps :
  run i input (Seq r1 r2) k s caps
  = run i input r1 (run i input r2 k) s caps.
Proof. reflexivity. Qed.

Lemma run_opt r k s caps :
  run i input (Opt r) k s caps
  = match run i input r k s caps with
    | Some res => Some res
    | None => k s caps
    end.
Proof. reflexivity. Qed.

Lemma run_group n r k s caps :
  run i input (Group n r) k s caps
  = run i input r
      (fun t caps' =>
         k t (<[n := Str.take (String.length s - String.length t) s]> caps'))
      s caps.
Proof. reflexivity. Qed.

Lemma run_cls cs k s caps :
  run i input (Cls cs) k s caps
  = match s with
    | String c s' => if class_has i cs c then k s' caps else None
    | EmptyString => None
    end.
Proof. reflexivity. Qed.

Lemma run_plus cs k s caps :
  run i input (Plus cs) k s caps
  = match s with
    | String c s' =>
        if class_has i cs c
        then plus_more (class_has i cs) (fun t => k t caps) s'
        else None
    | EmptyString => None
    end.
Proof. reflexivity. Qed.

Lemma run_eol k s caps :
  run i input Eol k s caps
  = match s with EmptyString => k s caps | _ => None end.
Proof. reflexivity. Qed.

(** An optional separator and group 2, then the end of the input. *)
Lemma run_tail sep cs t caps :
  run i input (Seq (Opt (Seq (Cls sep) (Group 2 (Plus cs)))) Eol)
      (fun _ c => Some c) t caps
  = match t with
    | EmptyString => Some caps
    | String c r =>
        if class_has i sep c && negb (Str.is_empty r)
           && Str.all (class_has i cs) r
        then Some (<[2%nat := r]> caps) else None
    end.
Proof.
  rewrite run_seq, run_opt, run_seq, run_cls.
  destruct t as [|c r]; [reflexivity|].
  destruct (class_has i sep c); [|reflexivity].
  rewrite run_group, run_plus.
  destruct r as [|d r]; [reflexivity|].
  cbn [Str.is_empty Str.all negb andb].
  destruct (class_has i cs d); [|reflexivity].
  rewrite plus_more_greedy by reflexivity.
  rewrite run_eol.
  destruct (Str.all (class_has i cs) r) eqn:E.
  - apply StrFacts.dropWhile_empty in E. rewrite E.
    change (String.length "") with 0%nat.
    rewrite Nat.sub_0_r, StrFacts.take_full.
    reflexivity.
  - destruct (Str.dropWhile (class_has i cs) r) eqn:D; [|reflexivity].
    apply StrFacts.dropWhile_empty in D. congruence.
Qed.
End Equations.

(** A pattern that starts with [^] only matches at the first position. *)
Lemma exec_anchored ignoreCase r input :
  exec ignoreCase (Seq Bol r) input
  = run ignoreCase input r (fun _ caps => Some caps) input ∅.
Proof.
  unfold exec. rewrite exec_from_eq, run_bol, Nat.eqb_refl.
  destruct (run _ _ _ _ _ _); [reflexivity|].
  destruct input as [|c s]; [reflexivity|].
  apply exec_from_short. simpl. lia.
Qed.

End RegexFacts.


(** ** What the two patterns match *)

Module PatternFacts.
Import Direct RegexFacts.

(** Group 1 is the run of digits that [\d+] took. *)
Lemma take_digits c s :
  Char.is_digit c = true ->
  Str.take (String.length (String c s)
            - String.length (Str.dropWhile Char.is_digit s)) (String c s)
  = String c (Str.takeWhile Char.is_digit s).
Proof.
  intros Hc.
  pose proof (StrFacts.take_dropWhile Char.is_digit (String c s)) as H.
  cbn [Str.dropWhile Str.takeWhile] in H. now rewrite Hc in H.
Qed.

Lemma exec_chapter_re u :
  exec false chapter_re u = option_map caps_of (chapter_split u).
Proof.
  unfold chapter_re. rewrite exec_anchored, run_seq, run_group, run_plus.
  destruct u as [|c u]; [reflexivity|].
  rewrite CharFacts.class_digit. unfold chapter_split.
  cbn [Str.takeWhile Str.dropWhile].
  destruct (Char.is_digit c) eqn:Hc; [|reflexivity].
  cbn [Str.is_empty].
  rewrite plus_more_greedy.
  2:{ intros d t Hd. rewrite CharFacts.class_digit in Hd.
      now rewrite run_tail, CharFacts.class_dash, CharFacts.digit_not_dash. }
  rewrite (StrFacts.dropWhile_ext _ Char.is_digit)
    by apply CharFacts.class_digit.
  rewrite run_tail, take_digits by assumption.
  unfold tail_split, caps_of.
  destruct (Str.dropWhile Char.is_digit u) as [|d r]; [reflexivity|].
  rewrite CharFacts.class_dash,
    (StrFacts.all_ext _ Char.is_upper) by apply CharFacts.class_AZ.
  destruct (_ && _ && _); reflexivity.
Qed.

Lemma dash_not_colon c : Ascii.eqb c "-" = true -> Ascii.eqb c ":" = false.
Proof. now intros ->%Ascii.eqb_eq. Qed.

(** The rest of [rsa_re] after group 1. *)
Lemma run_section_tail input t g1 :
  run true input
    (Seq (Opt (Seq (Cls (One ":" :: nil))
                   (Group 2 (Plus (Range "0" "9" :: Range "a" "z"
                                     :: One "-" :: nil)))))
         Eol)
    (fun _ caps => Some caps) t (<[1%nat := g1]> ∅)
  = option_map caps_of
      (option_map (pair g1) (tail_split ":" Spec.is_section_char t)).
Proof.
  rewrite run_tail. destruct t as [|c r]; [reflexivity|].
  unfold tail_split.
  rewrite CharFacts.class_colon,
    (StrFacts.all_ext _ Spec.is_section_char)
    by apply CharFacts.class_section_i.
  destruct (_ && _ && _); reflexivity.
Qed.

Lemma tail_split_dash p c r :
  Ascii.eqb c "-" = true -> tail_split ":" p (String c r) = None.
Proof. intros H. unfold tail_split. now rewrite (dash_not_colon _ H). Qed.

Lemma tail_split_digit p c r :
  Char.is_digit c = true -> tail_split ":" p (String c r) = None.
Proof.
  intros H. unfold tail_split. now rewrite (CharFacts.digit_not_colon _ H).
Qed.

Lemma exec_rsa_re s :
  exec true rsa_re s = option_map caps_of (rsa_split s).
Proof.
  unfold rsa_re.
  rewrite exec_anchored, run_seq, run_group, run_seq, run_plus.
  destruct s as [|c s]; [reflexivity|].
  rewrite CharFacts.class_digit. unfold rsa_split.
  cbn [Str.takeWhile Str.dropWhile].
  destruct (Char.is_digit c) eqn:Hc; [|reflexivity].
  cbn [Str.is_empty].
  rewrite plus_more_greedy.
  2:{ intros d t Hd. rewrite CharFacts.class_digit in Hd.
      rewrite run_opt, run_seq, run_cls, CharFacts.class_dash,
        CharFacts.digit_not_dash by assumption.
      now rewrite run_section_tail, tail_split_digit. }
  rewrite (StrFacts.dropWhile_ext _ Char.is_digit)
    by apply CharFacts.class_digit.
  rewrite run_opt, run_seq, run_cls, take_digits by assumption.
  rewrite (run_section_tail _ (Str.dropWhile _ _)).
  destruct (Str.dropWhile Char.is_digit s) as [|c0 r] eqn:HD;
    [reflexivity|].
  rewrite CharFacts.class_dash.
  destruct (Ascii.eqb c0 "-") eqn:E0; [|destruct r; reflexivity].
  rewrite run_cls. destruct r as [|l r]; [reflexivity|].
  rewrite CharFacts.class_az_i. cbn [andb].
  destruct (Char.is_letter l); [|reflexivity].
  rewrite (StrFacts.take_prefix
             (String c (Str.takeWhile Char.is_digit s)
                +:+ String c0 (String l "")) r).
  2:{ rewrite StrFacts.app_assoc. simpl. rewrite <- HD.
      now rewrite StrFacts.takeWhile_dropWhile. }
  rewrite run_section_tail, (tail_split_dash _ c0) by assumption.
  destruct (option_map caps_of _); reflexivity.
Qed.

End PatternFacts.

(** ** The pattern of [parseRSA] and the grammar *)

Module GrammarFacts.
Import Direct Spec.

Lemma takeWhile_all p s : Str.all p s = true -> Str.takeWhile p s = s.
Proof.
  intros H. rewrite <- (StrFacts.app_nil_r s) at 1.
  now apply StrFacts.takeWhile_app.
Qed.

Lemma dropWhile_all p s : Str.all p s = true -> Str.dropWhile p s = "".
Proof. apply StrFacts.dropWhile_empty. Qed.

Lemma digits_inv ds :
  digits ds = true -> Str.is_empty ds = false /\ Str.all Char.is_digit ds = true.
Proof.
  unfold digits. intros [H1 H2]%andb_true_iff.
  split; [now apply negb_true_iff | assumption].
Qed.

Lemma tail_split_inv sep p t g2 :
  tail_split sep p t = Some g2 ->
  (t = "" /\ g2 = None) \/
  (exists r, t = String sep r /\ g2 = Some r /\
             negb (Str.is_empty r) && Str.all p r = true).
Proof.
  unfold tail_split. destruct t as [|c r]; [intros [= <-]; now left|].
  destruct (Ascii.eqb_spec c sep) as [->|]; [|discriminate].
  cbn [andb]. destruct (_ && _) eqn:E; [|discriminate].
  intros [= <-]. right. now exists r.
Qed.

Lemma rsa_split_sound s ch sec :
  rsa_split s = Some (ch, sec) -> is_citation one_letter s ch sec.
Proof.
  unfold rsa_split.
  pose proof (StrFacts.takeWhile_dropWhile Char.is_digit s) as Hs.
  pose proof (StrFacts.all_takeWhile Char.is_digit s) as Hds.
  destruct (Str.is_empty (Str.takeWhile Char.is_digit s)) eqn:Hne;
    [discriminate|].
  set (ds := Str.takeWhile Char.is_digit s) in *.
  assert (Hdig : digits ds = true) by (unfold digits; now rewrite Hne, Hds).
  assert (Hfin : forall c r2,
             s = c +:+ r2 -> is_chapter one_letter c ->
             option_map (pair c) (tail_split ":" is_section_char r2)
             = Some (ch, sec) ->
             is_citation one_letter s ch sec).
  { intros c r2 -> Hc H.
    destruct (tail_split _ _ r2) as [g2|] eqn:E; [|discriminate].
    injection H as <- <-.
    apply tail_split_inv in E as [[-> ->]|(r & -> & -> & Hr)].
    - rewrite StrFacts.app_nil_r. now constructor.
    - apply (citation_section one_letter c r); [assumption|].
      exact Hr. }
  destruct (Str.dropWhile Char.is_digit s) as [|c [|l r]] eqn:HD.
  - apply Hfin; [now rewrite <- Hs | now constructor].
  - apply Hfin; [now rewrite <- Hs | now constructor].
  - destruct (Ascii.eqb_spec c "-") as [->|]; cbn [andb].
    + destruct (Char.is_letter l) eqn:Hl.
      * apply Hfin.
        -- now rewrite <- Hs, StrFacts.app_assoc.
        -- now apply (chapter_suffixed one_letter ds (String l "")).
      * apply Hfin; [now rewrite <- Hs | now constructor].
    + apply Hfin; [now rewrite <- Hs | now constructor].
Qed.

Lemma rsa_split_complete s ch sec :
  is_citation one_letter s ch sec -> rsa_split s = Some (ch, sec).
Proof.
  assert (Hsec : forall t, is_section t = true ->
            tail_split ":" is_section_char (String ":" t) = Some (Some t)).
  { intros t Ht. unfold tail_split. unfold is_section in Ht.
    rewrite Ascii.eqb_refl. cbn [andb]. now rewrite Ht. }
  intros [c Hc|c t Hc Ht]; destruct Hc as [ds Hd|ds suf Hd Hsuf];
    apply digits_inv in Hd as [Hne Hall]; unfold rsa_split.
  - rewrite takeWhile_all, dropWhile_all, Hne by assumption. reflexivity.
  - destruct suf as [|l [|]]; try discriminate. cbn in Hsuf.
    rewrite StrFacts.takeWhile_app, StrFacts.dropWhile_app, Hne
      by (assumption || reflexivity).
    cbn [String.append]. now rewrite Ascii.eqb_refl, Hsuf.
  - rewrite StrFacts.takeWhile_app, StrFacts.dropWhile_app, Hne
      by (assumption || reflexivity).
    cbn [String.append].
    destruct t as [|d t]; [discriminate|].
    change (Ascii.eqb ":" "-") with false. cbn [andb option_map].
    now rewrite Hsec.
  - destruct suf as [|l [|]]; try discriminate. cbn in Hsuf.
    rewrite StrFacts.app_assoc.
    rewrite StrFacts.takeWhile_app, StrFacts.dropWhile_app, Hne
      by (assumption || reflexivity).
    cbn [String.append]. rewrite Ascii.eqb_refl, Hsuf. cbn [andb].
    rewrite Hsec by assumption. reflexivity.
Qed.

End GrammarFacts.

(** ** [normalize] *)

Module NormalizeFacts.
Import Str.

Lemma remove_lower s :
  remove_space_runs (toLowerCase s) = toLowerCase (remove_space_runs s).
Proof.
  induction s as [|c s IH]; simpl; [reflexivity|].
  rewrite CharFacts.lower_space, IH. now destruct (Char.is_space c).
Qed.

Lemma remove_trimStart s :
  remove_space_runs (trimStart s) = remove_space_runs s.
Proof.
  induction s as [|c s IH]; simpl; [reflexivity|].
  destruct (Char.is_space c) eqn:E; [assumption|]. simpl. now rewrite E.
Qed.

Lemma remove_trimEnd s :
  remove_space_runs (trimEnd s) = remove_space_runs s.
Proof.
  induction s as [|c s IH]; simpl; [reflexivity|].
  destruct (trimEnd s) as [|d t]; simpl in *.
  - rewrite <- IH. destruct (Char.is_space c) eqn:E; simpl; now rewrite ?E.
  - now rewrite IH.
Qed.

Lemma remove_trim s : remove_space_runs (trim s) = remove_space_runs s.
Proof. unfold trim. now rewrite remove_trimEnd, remove_trimStart. Qed.

Lemma remove_no_space s : all Char.not_space (remove_space_runs s) = true.
Proof.
  induction s as [|c s IH]; simpl; [reflexivity|].
  destruct (Char.is_space c) eqn:E; [assumption|].
  simpl. unfold Char.not_space at 1. now rewrite E.
Qed.

Lemma lower_no_space s : all Char.not_space (toLowerCase s) = all Char.not_space s.
Proof.
  induction s as [|c s IH]; simpl; [reflexivity|].
  unfold Char.not_space at 1 3. now rewrite CharFacts.lower_space, IH.
Qed.

(** [trim] cuts white space, and only white space, from both ends. *)
Lemma trimStart_spec s :
  exists l, s = l +:+ trimStart s /\ all Char.is_space l = true /\
            stops Char.is_space (trimStart s).
Proof.
  induction s as [|c s (l & Hs & Hl & Hst)]; simpl.
  - now exists "".
  - destruct (Char.is_space c) eqn:E.
    + exists (String c l). repeat split; simpl; rewrite ?E; simpl; congruence.
    + now exists "".
Qed.

Lemma trimEnd_spec s :
  exists r, s = trimEnd s +:+ r /\ all Char.is_space r = true /\
            ends_off Char.is_space (trimEnd s).
Proof.
  unfold ends_off.
  induction s as [|c s (r & Hs & Hr & Hst)]; simpl.
  - now exists "".
  - destruct (trimEnd s) as [|d t] eqn:E.
    + simpl in Hs. subst r. destruct (Char.is_space c) eqn:Ec.
      * exists (String c s). repeat split; simpl; rewrite ?Ec; simpl; auto.
      * exists s. now repeat split.
    + exists r. repeat split; [simpl in *; congruence | assumption|].
      exact Hst.
Qed.

Lemma trimEnd_stops s :
  stops Char.is_space s -> stops Char.is_space (trimEnd s).
Proof.
  destruct s as [|c s]; simpl; [trivial|]. intros E.
  destruct (trimEnd s); [now rewrite E | assumption].
Qed.

Lemma trim_spec s :
  exists l r, s = l +:+ trim s +:+ r /\
              all Char.is_space l = true /\ all Char.is_space r = true /\
              stops Char.is_space (trim s) /\
              ends_off Char.is_space (trim s).
Proof.
  destruct (trimStart_spec s) as (l & Hs & Hl & Hst).
  destruct (trimEnd_spec (trimStart s)) as (r & Ht & Hr & Hen).
  exists l, r. unfold trim. repeat split; try assumption.
  - now rewrite <- Ht.
  - now apply trimEnd_stops.
Qed.

Lemma normalize_eq v :
  normalize v
  = Ok (remove_space_runs (toLowerCase (trim (to_string (or_empty v))))).
Proof. destruct v as [| |[|c s]]; reflexivity. Qed.

End NormalizeFacts.

(** ** [chapterToken] and the order on tokens *)

Module TokenFacts.
Import Direct Spec.

Lemma group1_caps_of x : group (caps_of x) 1 = JStr (fst x).
Proof.
  destruct x as [g1 [g2|]]; unfold group, caps_of, add_group2; simpl.
  - now rewrite lookup_insert_ne, lookup_insert_eq.
  - now rewrite lookup_insert_eq.
Qed.

Lemma group2_caps_of x :
  group (caps_of x) 2
  = match snd x with Some g2 => JStr g2 | None => JUndefined end.
Proof.
  destruct x as [g1 [g2|]]; unfold group, caps_of, add_group2; simpl.
  - now rewrite lookup_insert_eq.
  - now rewrite lookup_insert_ne, lookup_empty.
Qed.

Lemma digits_value_spec ds acc :
  Str.all Char.is_digit ds = true ->
  digits_value acc ds
  = acc * 10 ^ Z.of_nat (String.length ds) + decimal_value ds.
Proof.
  revert acc. induction ds as [|c ds IH]; intros acc H.
  - simpl. lia.
  - apply andb_true_iff in H as [Hc Hds].
    cbn [digits_value decimal_value String.length].
    rewrite IH, (CharFacts.digit_code _ Hc), Nat2Z.inj_succ, Z.pow_succ_r
      by (assumption || lia).
    ring.
Qed.

(** Up to 2^53 an integer is its own double. *)
Lemma to_double_exact z : 0 <= z <= 2 ^ 53 -> to_double z = z.
Proof.
  intros [H0 H53]. unfold to_double, round_magnitude.
  rewrite Z.abs_eq by assumption.
  apply Z.leb_le in H53. rewrite H53.
  destruct (Z.eq_dec z 0) as [->|Hz]; [reflexivity|].
  rewrite Z.sgn_pos by lia. lia.
Qed.

(** [parseInt] of a run of digits is the double of the value of the run. *)
Lemma parseInt10_digits ds :
  digits ds = true -> parseInt10 (JStr ds) = Num (to_double (decimal_value ds)).
Proof.
  intros [Hne Hall]%GrammarFacts.digits_inv. unfold parseInt10.
  destruct ds as [|c ds]; [discriminate|].
  pose proof Hall as Hall'. cbn [Str.all] in Hall'.
  apply andb_true_iff in Hall' as [Hc _].
  cbn [to_string Str.trimStart].
  rewrite (CharFacts.digit_not_space _ Hc), (CharFacts.digit_not_dash _ Hc),
    (CharFacts.digit_not_plus _ Hc).
  rewrite GrammarFacts.takeWhile_all, Hne, digits_value_spec by assumption.
  do 2 f_equal. lia.
Qed.

(** Upper-casing a run of letters. *)
Lemma upper_letters suf :
  Str.all Char.is_letter suf = true ->
  Str.all Char.is_upper (Str.toUpperCase suf) = true /\
  Str.is_empty (Str.toUpperCase suf) = Str.is_empty suf.
Proof.
  induction suf as [|c suf IH]; [now repeat split|].
  intros [Hc Hsuf]%andb_true_iff.
  destruct (IH Hsuf) as (IH1 & IH2).
  destruct (CharFacts.upper_letter _ Hc) as (u & Hu & Hup & Hpos).
  cbn [Str.toUpperCase]. rewrite Hu. cbn [String.append].
  split; [|reflexivity].
  cbn [Str.all]. now rewrite Hup.
Qed.

Lemma toUpperCase_chapter ds suf :
  Str.all Char.is_digit ds = true ->
  Str.toUpperCase (ds +:+ "-" +:+ suf) = ds +:+ "-" +:+ Str.toUpperCase suf.
Proof.
  intros H.
  now rewrite StrFacts.toUpperCase_app, StrFacts.toUpperCase_digits.
Qed.

(** The token of a valid chapter, as the code computes it. *)
Lemma chapterToken_plain_double ds :
  digits ds = true ->
  chapterToken ds = Ok (Num (to_double (decimal_value ds)), 0).
Proof.
  intros Hd. pose proof Hd as [Hne Hall]%GrammarFacts.digits_inv.
  unfold chapterToken.
  rewrite StrFacts.toUpperCase_digits, PatternFacts.exec_chapter_re
    by assumption.
  unfold chapter_split.
  rewrite GrammarFacts.takeWhile_all, GrammarFacts.dropWhile_all, Hne
    by assumption.
  cbn [tail_split option_map].
  now rewrite group1_caps_of, group2_caps_of, parseInt10_digits.
Qed.

Lemma chapterToken_suffixed_double ds suf :
  digits ds = true -> letters suf = true ->
  chapterToken (ds +:+ "-" +:+ suf)
  = Ok (Num (to_double (decimal_value ds)),
        suffix_loop 0 (Str.toUpperCase suf)).
Proof.
  intros Hd [Hs Hl]%andb_true_iff.
  pose proof Hd as [Hne Hall]%GrammarFacts.digits_inv.
  destruct (upper_letters _ Hl) as (Hup & Hemp).
  unfold chapterToken.
  rewrite toUpperCase_chapter, PatternFacts.exec_chapter_re by assumption.
  unfold chapter_split.
  rewrite StrFacts.takeWhile_app, StrFacts.dropWhile_app, Hne
    by (assumption || reflexivity).
  cbn [String.append tail_split].
  rewrite Ascii.eqb_refl, Hemp, Hs, Hup. cbn [andb option_map].
  rewrite group1_caps_of, group2_caps_of, parseInt10_digits by assumption.
  cbn [fst snd]. unfold or_empty, truthy. rewrite Hemp, Hs.
  reflexivity.
Qed.

Lemma valid_chapter_inv c :
  valid_chapter c ->
  exists ds suf, digits ds = true /\ Str.all Char.is_letter suf = true /\
                 c = chapter_string ds suf.
Proof.
  intros [ds Hd|ds suf Hd Hsuf].
  - now exists ds, "".
  - exists ds, suf. pose proof Hsuf as [Hs Hl]%andb_true_iff.
    unfold chapter_string.
    apply negb_true_iff in Hs. now rewrite Hs.
Qed.

Lemma chapterToken_string_double ds suf :
  digits ds = true -> Str.all Char.is_letter suf = true ->
  chapterToken (chapter_string ds suf)
  = Ok (Num (to_double (decimal_value ds)),
        suffix_loop 0 (Str.toUpperCase suf)).
Proof.
  intros Hd Hl. unfold chapter_string.
  destruct suf as [|c suf]; [now apply chapterToken_plain_double|].
  apply chapterToken_suffixed_double; [assumption|].
  unfold letters. now rewrite Hl.
Qed.

Lemma chapterToken_valid c :
  valid_chapter c -> exists z n, chapterToken c = Ok (Num z, n).
Proof.
  intros (ds & suf & Hd & Hl & ->)%valid_chapter_inv.
  rewrite chapterToken_string_double by assumption. eauto.
Qed.

(** A token that [chapterToken] returns never has [NaN] for a base. *)
Lemma chapterToken_base c t :
  chapterToken c = Ok t -> exists z, fst t = Num z.
Proof.
  unfold chapterToken. rewrite PatternFacts.exec_chapter_re.
  destruct (chapter_split (Str.toUpperCase c)) as [[g1 g2]|] eqn:E;
    [|discriminate].
  cbn [option_map]. rewrite group1_caps_of. intros [= <-].
  cbn [fst]. unfold chapter_split in E.
  destruct (Str.is_empty (Str.takeWhile _ _)) eqn:Hne; [discriminate|].
  destruct (tail_split _ _ _); [|discriminate]. injection E as <- _.
  rewrite parseInt10_digits; [eauto|].
  unfold digits. now rewrite Hne, StrFacts.all_takeWhile.
Qed.

(** The numbers of a token stay in the range where a JavaScript number is
    an exact integer. *)
Lemma decimal_value_bound ds :
  Str.all Char.is_digit ds = true ->
  0 <= decimal_value ds < 10 ^ Z.of_nat (String.length ds).
Proof.
  induction ds as [|c ds IH]; [intros _; cbn; lia|].
  intros [Hc Hds]%andb_true_iff.
  apply CharFacts.digit_value_range in Hc.
  apply andb_true_iff in Hc as [H0%Z.leb_le H9%Z.leb_le].
  specialize (IH Hds). cbn [decimal_value String.length].
  rewrite Nat2Z.inj_succ, Z.pow_succ_r by lia. nia.
Qed.

Lemma fold_position_bound suf acc k :
  Str.all Char.is_letter suf = true -> 0 <= acc < 27 ^ k -> 0 <= k ->
  0 <= fold_left (fun acc l => acc * 26 + letter_position l)
                 (list_ascii_of_string suf) acc
    < 27 ^ (k + Z.of_nat (String.length suf)).
Proof.
  revert acc k. induction suf as [|c suf IH]; intros acc k Hl Hacc Hk.
  - cbn. now rewrite Z.add_0_r.
  - apply andb_true_iff in Hl as [Hc Hsuf].
    apply CharFacts.letter_position_range in Hc.
    apply andb_true_iff in Hc as [H1%Z.leb_le H26%Z.leb_le].
    cbn [list_ascii_of_string fold_left String.length].
    replace (k + Z.of_nat (S (String.length suf)))
      with ((k + 1) + Z.of_nat (String.length suf)) by lia.
    apply IH; [assumption| |lia].
    rewrite Z.pow_add_r, Z.pow_1_r by lia. nia.
Qed.

Lemma token_exact ds suf :
  digits ds = true -> Str.all Char.is_letter suf = true ->
  (String.length ds <= 15)%nat -> (String.length suf <= 11)%nat ->
  0 <= decimal_value ds <= MAX_SAFE_INTEGER /\
  0 <= suffix_ordinal suf <= MAX_SAFE_INTEGER.
Proof.
  intros [_ Hd]%GrammarFacts.digits_inv Hl Hnd Hns.
  pose proof (decimal_value_bound _ Hd) as Bd.
  pose proof (fold_position_bound suf 0 0 Hl ltac:(cbn; lia) ltac:(lia)) as Bs.
  assert (10 ^ Z.of_nat (String.length ds) <= 10 ^ 15)
    by (apply Z.pow_le_mono_r; lia).
  assert (27 ^ (0 + Z.of_nat (String.length suf)) <= 27 ^ 11)
    by (apply Z.pow_le_mono_r; lia).
  unfold suffix_ordinal, MAX_SAFE_INTEGER.
  change (10 ^ 15) with 1000000000000000 in *.
  change (27 ^ 11) with 5559060566555523 in *.
  change (2 ^ 53 - 1) with 9007199254740991. lia.
Qed.

(** The exact loop never goes down. *)
Lemma fold_position_ge suf acc :
  Str.all Char.is_letter suf = true -> 0 <= acc ->
  acc <= fold_left (fun acc l => acc * 26 + letter_position l)
                   (list_ascii_of_string suf) acc.
Proof.
  revert acc. induction suf as [|c suf IH]; intros acc Hl Hacc; [cbn; lia|].
  apply andb_true_iff in Hl as [Hc Hsuf].
  apply CharFacts.letter_position_range in Hc.
  apply andb_true_iff in Hc as [H1%Z.leb_le H26%Z.leb_le].
  cbn [list_ascii_of_string fold_left].
  specialize (IH (acc * 26 + letter_position c) Hsuf ltac:(lia)). lia.
Qed.

(** As long as the ordinal stays within 2^53, the loop of the code
    rounds nothing. *)
Lemma suffix_loop_exact suf n :
  Str.all Char.is_letter suf = true -> 0 <= n ->
  fold_left (fun acc l => acc * 26 + letter_position l)
            (list_ascii_of_string suf) n <= 2 ^ 53 ->
  suffix_loop n (Str.toUpperCase suf)
  = fold_left (fun acc l => acc * 26 + letter_position l)
              (list_ascii_of_string suf) n.
Proof.
  revert n. induction suf as [|c suf IH]; intros n Hl Hn Hb; [reflexivity|].
  apply andb_true_iff in Hl as [Hc Hsuf].
  destruct (CharFacts.upper_letter _ Hc) as (u & Hu & _ & Hpos).
  apply CharFacts.letter_position_range in Hc.
  apply andb_true_iff in Hc as [H1%Z.leb_le H26%Z.leb_le].
  cbn [list_ascii_of_string fold_left] in *.
  pose proof (fold_position_ge suf (n * 26 + letter_position c) Hsuf
                ltac:(lia)) as Hge.
  cbn [Str.toUpperCase]. rewrite Hu. cbn [String.append suffix_loop].
  rewrite Hpos, (to_double_exact (n * 26)) by lia.
  rewrite to_double_exact by lia.
  apply IH; [assumption | lia | assumption].
Qed.

(** The token of a valid chapter whose numbers stay within 2^53. *)
Lemma chapterToken_string ds suf :
  digits ds = true -> Str.all Char.is_letter suf = true ->
  decimal_value ds <= 2 ^ 53 -> suffix_ordinal suf <= 2 ^ 53 ->
  chapterToken (chapter_string ds suf)
  = Ok (Num (decimal_value ds), suffix_ordinal suf).
Proof.
  intros Hd Hl Hbd Hbs.
  rewrite chapterToken_string_double by assumption.
  apply GrammarFacts.digits_inv in Hd as [_ Hall].
  pose proof (decimal_value_bound _ Hall) as [H0 _].
  rewrite to_double_exact by lia.
  now rewrite suffix_loop_exact by (assumption || lia).
Qed.

Lemma token_le_refl z n : token_le (Num z, n) (Num z, n) = true.
Proof.
  unfold token_le. cbn. rewrite Z.eqb_refl, Z.leb_refl.
  now rewrite orb_true_r.
Qed.

Lemma token_le_iff z1 n1 z2 n2 :
  token_le (Num z1, n1) (Num z2, n2) = true
  <-> z1 < z2 \/ (z1 = z2 /\ n1 <= n2).
Proof.
  unfold token_le. cbn.
  rewrite orb_true_iff, andb_true_iff, Z.ltb_lt, Z.eqb_eq, Z.leb_le.
  reflexivity.
Qed.

Lemma valid_lower c : valid_chapter c -> valid_chapter (Str.toLowerCase c).
Proof.
  intros [ds Hd|ds suf Hd Hsuf];
    pose proof Hd as [Hne Hall]%GrammarFacts.digits_inv.
  - rewrite StrFacts.toLowerCase_digits by assumption. now constructor.
  - rewrite !StrFacts.toLowerCase_app, StrFacts.toLowerCase_digits
      by assumption.
    apply (chapter_suffixed letters ds (Str.toLowerCase suf)); [assumption|].
    apply andb_true_iff in Hsuf as [Hs Hl]. unfold letters.
    now rewrite StrFacts.is_empty_toLowerCase, Hs, StrFacts.toLowerCase_letters.
Qed.

End TokenFacts.

(** ** [parseRSA] *)

Module ParseFacts.
Import Direct Spec.

Lemma parseRSA_split input s0 :
  normalize input = Ok s0 ->
  parseRSA input
  = match rsa_split (strip_rsa s0) with
    | Some (ch, sec) => Ok (cite ch sec)
    | None => throw ParseError
    end.
Proof.
  intros Hn. unfold parseRSA. rewrite Hn. cbn [bind Ok].
  rewrite PatternFacts.exec_rsa_re.
  destruct (rsa_split (strip_rsa s0)) as [[ch sec]|] eqn:E; [|reflexivity].
  cbn [option_map].
  rewrite TokenFacts.group1_caps_of, TokenFacts.group2_caps_of.
  cbn [fst snd method bind Ok]. destruct sec as [t|]; [|reflexivity].
  apply GrammarFacts.rsa_split_sound in E. inversion E as [|? ? _ Ht]; subst.
  apply andb_true_iff in Ht as [Ht _]. unfold truthy. now rewrite Ht.
Qed.

Lemma parseRSA_ok input s0 c :
  normalize input = Ok s0 ->
  parseRSA input = Ok c
  <-> exists ch sec, is_citation one_letter (strip_rsa s0) ch sec /\
                     c = cite ch sec.
Proof.
  intros Hn. rewrite (parseRSA_split _ _ Hn). split.
  - destruct (rsa_split _) as [[ch sec]|] eqn:E; [|discriminate].
    intros [= <-]. exists ch, sec.
    split; [now apply GrammarFacts.rsa_split_sound | reflexivity].
  - intros (ch & sec & H & ->).
    now rewrite (GrammarFacts.rsa_split_complete _ _ _ H).
Qed.

Lemma parseRSA_error input s0 :
  normalize input = Ok s0 ->
  parseRSA input = throw ParseError
  <-> ~ exists ch sec, is_citation one_letter (strip_rsa s0) ch sec.
Proof.
  intros Hn. rewrite (parseRSA_split _ _ Hn). split.
  - destruct (rsa_split _) as [[ch sec]|] eqn:E; [discriminate|].
    intros _ (ch & sec & H).
    apply GrammarFacts.rsa_split_complete in H. congruence.
  - intros Hno. destruct (rsa_split _) as [[ch sec]|] eqn:E; [|reflexivity].
    exfalso. apply Hno. exists ch, sec.
    now apply GrammarFacts.rsa_split_sound.
Qed.

(** Two letters or more after the hyphen are not a chapter of the
    pattern, whatever follows. *)
Lemma rsa_split_long_suffix ds suf :
  digits ds = true -> letters suf = true -> one_letter suf = false ->
  rsa_split (ds +:+ "-" +:+ suf) = None.
Proof.
  intros [Hne Hall]%GrammarFacts.digits_inv [Hs Hl]%andb_true_iff Hone.
  destruct suf as [|l1 [|l2 suf]]; [discriminate| |].
  - cbn in Hl, Hone. rewrite andb_true_r in Hl. congruence.
  - cbn [Str.all] in Hl.
    apply andb_true_iff in Hl as [Hl1 [Hl2 _]%andb_true_iff].
    unfold rsa_split.
    rewrite StrFacts.takeWhile_app, StrFacts.dropWhile_app, Hne
      by (assumption || reflexivity).
    cbn [String.append]. rewrite Ascii.eqb_refl, Hl1. cbn [andb].
    unfold tail_split. now rewrite (CharFacts.letter_not_colon _ Hl2).
Qed.

(** A chapter that the parser returns: digits, or digits, a hyphen and
    one lower-case letter. *)
Lemma cite_chapter_shape ch :
  is_chapter one_letter ch ->
  exists ds, digits ds = true /\
    (Str.toLowerCase ch = ds \/
     exists l, Char.is_lower l = true /\
               Str.toLowerCase ch = ds +:+ "-" +:+ String l "").
Proof.
  intros [ds Hd|ds suf Hd Hsuf];
    pose proof Hd as [Hne Hall]%GrammarFacts.digits_inv; exists ds;
    (split; [assumption|]).
  - left. now apply StrFacts.toLowerCase_digits.
  - right. destruct suf as [|l [|]]; try discriminate. cbn in Hsuf.
    exists (Char.lower l). split; [now apply CharFacts.lower_letter|].
    now rewrite StrFacts.toLowerCase_app, StrFacts.toLowerCase_digits.
Qed.

End ParseFacts.

(** ** [folderForChapter] *)

Module ResolverFacts.

Lemma inRange_valid c a b :
  valid_chapter c -> valid_chapter a -> valid_chapter b ->
  exists hit, inRange c a b = Ok hit.
Proof.
  intros (zc & nc & Hc)%TokenFacts.chapterToken_valid
         (za & na & Ha)%TokenFacts.chapterToken_valid
         (zb & nb & Hb)%TokenFacts.chapterToken_valid.
  unfold inRange. rewrite Hc, Ha, Hb. cbn. eauto.
Qed.

(** On well-formed ranges the scan returns the folder of the first
    entry that contains the chapter. *)
Lemma scan_ranges_find chapter trs :
  valid_chapter chapter -> Forall range_wf trs ->
  scan_ranges chapter trs
  = Ok (match find (range_contains chapter) trs with
        | Some tr => folder tr
        | None => JNull
        end).
Proof.
  intros Hc. induction 1 as [|tr trs [Hs He] _ IH]; [reflexivity|].
  cbn [scan_ranges find]. unfold range_contains.
  destruct (inRange_valid chapter _ _ Hc (TokenFacts.valid_lower _ Hs)
              (TokenFacts.valid_lower _ He)) as [hit ->].
  cbn. destruct hit; [reflexivity | exact IH].
Qed.

Lemma folderForChapter_direct chapter p :
  truthy (direct_lookup chapter p) = true ->
  folderForChapter chapter p = Ok (direct_lookup chapter p).
Proof. unfold folderForChapter. now intros ->. Qed.

Lemma folderForChapter_scan chapter p :
  truthy (direct_lookup chapter p) = false ->
  folderForChapter chapter p
  = scan_ranges chapter (default nil (title_ranges p)).
Proof. unfold folderForChapter. now intros ->. Qed.

End ResolverFacts.

(** * The claims *)

Import Spec.

(** ** The citation parser *)

(** C1, as stated, fails: the text "225-aa" is normalized, carries no
    "rsa" prefix and is a chapter of the grammar with a suffix of several
    letters, and [parseRSA] rejects it. *)
Lemma parseRSA_rejects_multi_letter_suffix :
  normalize (JStr "225-aa") = Ok "225-aa" /\
  strip_rsa "225-aa" = "225-aa" /\
  is_citation letters "225-aa" "225-aa" None /\
  parseRSA (JStr "225-aa") = throw ParseError.
Proof.
  repeat split; try reflexivity.
  apply citation_chapter. now apply (chapter_suffixed letters "225" "aa").
Qed.

(** C1, amended: [parseRSA] succeeds exactly when the normalized input,
    without a leading "rsa", is digits, optionally a hyphen and exactly one
    letter, optionally a colon and a non-empty run of letters, digits and
    hyphens, with nothing before or after; it then returns the lower-cased
    chapter and the lower-cased section, or null for the section when
    there is none.  Every other input, and so every chapter with two or
    more letters after the hyphen, is a ParseError. *)
Theorem parseRSA_grammar (input : jsval) (s0 : string) :
  normalize input = Ok s0 ->
  (forall c,
      parseRSA input = Ok c
      <-> exists ch sec, is_citation one_letter (strip_rsa s0) ch sec /\
                         c = cite ch sec) /\
  (parseRSA input = throw ParseError
   <-> ~ exists ch sec, is_citation one_letter (strip_rsa s0) ch sec) /\
  (forall ds suf,
      digits ds = true -> letters suf = true -> one_letter suf = false ->
      strip_rsa s0 = ds +:+ "-" +:+ suf ->
      parseRSA input = throw ParseError).
Proof.
  intros Hn. split; [|split].
  - intros c. now apply ParseFacts.parseRSA_ok.
  - now apply ParseFacts.parseRSA_error.
  - intros ds suf Hd Hl Hone Hs.
    rewrite (ParseFacts.parseRSA_split _ _ Hn), Hs.
    now rewrite ParseFacts.rsa_split_long_suffix.
Qed.

Lemma parseRSA_grammar_witness :
  normalize (JStr "  RSA 225-A : 24 ") = Ok "rsa225-a:24" /\
  parseRSA (JStr "  RSA 225-A : 24 ") = Ok (cite "225-a" (Some "24")).
Proof.
  split; [reflexivity|].
  apply (proj1 (parseRSA_grammar (JStr "  RSA 225-A : 24 ") "rsa225-a:24"
                  eq_refl)).
  exists "225-a", (Some "24"). split; [|reflexivity].
  apply (citation_section one_letter "225-a" "24"); [|reflexivity].
  apply (chapter_suffixed one_letter "225" "a"); reflexivity.
Defined.

(** C9: a chapter that [parseRSA] returns is a run of digits, optionally
    followed by a hyphen and one lower-case letter, and [chapterToken]
    returns a token for it: the BadChapterFormat error cannot arise from a
    parsed chapter. *)
Theorem parsed_chapter_has_token (input : jsval) (c : citation) :
  parseRSA input = Ok c ->
  (exists t, chapterToken (chapter c) = Ok t) /\
  chapterToken (chapter c) <> throw (BadChapterFormat (chapter c)) /\
  exists ds, digits ds = true /\
    (chapter c = ds \/
     exists l, Char.is_lower l = true /\
               chapter c = ds +:+ "-" +:+ String l "").
Proof.
  intros Hp.
  apply (ParseFacts.parseRSA_ok _ _ _ (NormalizeFacts.normalize_eq input)) in Hp
    as (ch & sec & Hcit & ->).
  assert (Hch : is_chapter one_letter ch) by (inversion Hcit; assumption).
  destruct (ParseFacts.cite_chapter_shape _ Hch) as (ds & Hd & Hshape).
  cbn [cite chapter].
  assert (Hv : valid_chapter (Str.toLowerCase ch)).
  { destruct Hshape as [->|(l & Hl & ->)]; [now constructor|].
    apply (chapter_suffixed letters ds (String l "")); [assumption|].
    unfold letters. cbn. now rewrite (CharFacts.lower_is_letter _ Hl). }
  destruct (TokenFacts.chapterToken_valid _ Hv) as (z & n & Ht).
  split; [eauto|]. split; [rewrite Ht; discriminate|]. eauto.
Qed.

Lemma parsed_chapter_has_token_witness :
  parseRSA (JStr "rsa225-a:24-a") = Ok (cite "225-a" (Some "24-a")) /\
  exists t, chapterToken "225-a" = Ok t.
Proof.
  split; [reflexivity|].
  exact (proj1 (parsed_chapter_has_token (JStr "rsa225-a:24-a")
                  (cite "225-a" (Some "24-a")) eq_refl)).
Defined.

(** ** The normalizer *)

(** C8: [normalize] never fails.  On null and on undefined it returns the
    empty string.  On a string it returns the string trimmed, then
    lower-cased, then without its runs of white space, where trimming cuts
    white space, and nothing else, from both ends; the result has no white
    space left, is in lower case, and is the lower-cased sequence of the
    code units of the input that are not white space. *)
Theorem normalize_spec (v : jsval) :
  exists out,
    normalize v = Ok out /\
    (nullish v -> out = "") /\
    (forall s, v = JStr s ->
       out = Str.remove_space_runs (Str.toLowerCase (Str.trim s)) /\
       out = Str.toLowerCase (Str.remove_space_runs s) /\
       exists l r, s = l +:+ Str.trim s +:+ r /\
                   Str.all Char.is_space l = true /\
                   Str.all Char.is_space r = true /\
                   Str.stops Char.is_space (Str.trim s) /\
                   Str.ends_off Char.is_space (Str.trim s)) /\
    Str.all Char.not_space out = true /\
    Str.toLowerCase out = out.
Proof.
  eexists. split; [apply NormalizeFacts.normalize_eq|].
  rewrite NormalizeFacts.remove_lower, NormalizeFacts.remove_trim.
  split; [|split; [|split]].
  - now intros [-> | ->].
  - intros s ->. split; [|split].
    + rewrite NormalizeFacts.remove_lower, NormalizeFacts.remove_trim.
      now destruct s.
    + now destruct s.
    + apply NormalizeFacts.trim_spec.
  - now rewrite NormalizeFacts.lower_no_space, NormalizeFacts.remove_no_space.
  - apply StrFacts.toLowerCase_idem.
Qed.

Lemma normalize_spec_witness :
  normalize (JStr "  RSA 225-A : 24 ") = Ok "rsa225-a:24" /\
  normalize JNull = Ok "" /\
  exists out, normalize JUndefined = Ok out /\ out = "".
Proof.
  split; [reflexivity|]. split; [reflexivity|].
  destruct (normalize_spec JUndefined) as (out & Hn & Hnull & _).
  exists out. split; [exact Hn|]. apply Hnull. right. reflexivity.
Defined.

(** ** Chapter tokens *)




(** C3: the order on chapters that compares the base first and the suffix
    ordinal second puts 225, 225-a, 225-b, 225-z, 225-aa and 226 in this
    strict order; it is reflexive and total on valid chapter strings, and
    transitive. *)
Theorem chapter_order :
  (chapter_lt "225" "225-a" /\ chapter_lt "225-a" "225-b" /\
   chapter_lt "225-b" "225-z" /\ chapter_lt "225-z" "225-aa" /\
   chapter_lt "225-aa" "226") /\
  (forall c, valid_chapter c -> chapter_le c c) /\
  (forall c1 c2 c3, chapter_le c1 c2 -> chapter_le c2 c3 -> chapter_le c1 c3) /\
  (forall c1 c2, valid_chapter c1 -> valid_chapter c2 ->
                 chapter_le c1 c2 \/ chapter_le c2 c1).
Proof.
  split; [|split; [|split]].
  - repeat split; eexists _, _; repeat split; reflexivity.
  - intros c (z & n & Ht)%TokenFacts.chapterToken_valid.
    exists (Num z, n), (Num z, n).
    repeat split; try assumption. apply TokenFacts.token_le_refl.
  - intros c1 c2 c3 (t1 & t2 & H1 & H2 & H12) (t2' & t3 & H2' & H3 & H23).
    assert (t2' = t2) as -> by (unfold Ok in *; congruence).
    exists t1, t3. repeat split; try assumption.
    destruct (TokenFacts.chapterToken_base _ _ H1) as [z1 E1].
    destruct (TokenFacts.chapterToken_base _ _ H2) as [z2 E2].
    destruct (TokenFacts.chapterToken_base _ _ H3) as [z3 E3].
    destruct t1 as [b1 n1], t2 as [b2 n2], t3 as [b3 n3].
    cbn [fst] in *. subst.
    apply TokenFacts.token_le_iff. apply TokenFacts.token_le_iff in H12, H23.
    lia.
  - intros c1 c2 (z1 & n1 & H1)%TokenFacts.chapterToken_valid
                 (z2 & n2 & H2)%TokenFacts.chapterToken_valid.
    destruct (Z_lt_le_dec z1 z2) as [Hlt|Hge];
      [|destruct (Z_lt_le_dec z2 z1) as [Hlt|Hle];
        [|destruct (Z_le_gt_dec n1 n2)]].
    + left. exists (Num z1, n1), (Num z2, n2).
      repeat split; try assumption. apply TokenFacts.token_le_iff. lia.
    + right. exists (Num z2, n2), (Num z1, n1).
      repeat split; try assumption. apply TokenFacts.token_le_iff. lia.
    + left. exists (Num z1, n1), (Num z2, n2).
      repeat split; try assumption. apply TokenFacts.token_le_iff. lia.
    + right. exists (Num z2, n2), (Num z1, n1).
      repeat split; try assumption. apply TokenFacts.token_le_iff. lia.
Qed.

Lemma chapter_order_witness :
  chapter_le "225-a" "225-a" /\
  (chapter_le "225-z" "225-aa" \/ chapter_le "225-aa" "225-z").
Proof.
  assert (Ha : valid_chapter "225-a")
    by now apply (chapter_suffixed letters "225" "a").
  assert (Hz : valid_chapter "225-z")
    by now apply (chapter_suffixed letters "225" "z").
  assert (Haa : valid_chapter "225-aa")
    by now apply (chapter_suffixed letters "225" "aa").
  split.
  - exact (proj1 (proj2 chapter_order) "225-a" Ha).
  - exact (proj2 (proj2 (proj2 chapter_order)) "225-z" "225-aa" Hz Haa).
Defined.

(** C7: a valid chapter string lies in the range that starts and ends at
    itself: both bounds of [inRange] are inclusive. *)
Theorem inRange_degenerate (c : string) :
  valid_chapter c -> inRange c c c = Ok true.
Proof.
  intros (z & n & Ht)%TokenFacts.chapterToken_valid.
  unfold inRange. rewrite Ht. cbn [bind Ok].
  now rewrite TokenFacts.token_le_refl.
Qed.

Lemma inRange_degenerate_witness : inRange "225-a" "225-a" "225-a" = Ok true.
Proof.
  apply inRange_degenerate.
  now apply (chapter_suffixed letters "225" "a").
Defined.

(** ** The folder resolver *)

(** C2, as stated, fails: here "10" is an exact key of [chapter_to_title],
    its value is the empty string, and the resolver returns the folder of
    the range that contains "10" instead of the value of the key. *)
Lemma empty_direct_value_is_not_returned :
  let p := {| chapter_to_title := Some {[ "10" := JStr "" ]};
              title_ranges :=
                Some ({| start := "1"; end_ := "20";
                         folder := JStr "title1" |} :: nil) |} in
  direct_lookup "10" p = JStr "" /\
  folderForChapter "10" p = Ok (JStr "title1") /\
  folderForChapter "10" p <> Ok (JStr "").
Proof. repeat split. vm_compute. discriminate. Qed.

(** C2, amended: when [chapter_to_title] has the chapter as a key and the
    value of the key is truthy (a non-empty string), [folderForChapter]
    returns that value, whatever [title_ranges] holds: the ranges are not
    scanned, so a range with another folder that contains the chapter, or
    a malformed range, changes nothing. *)
Theorem folderForChapter_direct_hit
    (chapter : string) (m : gmap string jsval)
    (ranges : option (list title_range)) (v : jsval) :
  m !! chapter = Some v -> truthy v = true ->
  folderForChapter chapter
    {| chapter_to_title := Some m; title_ranges := ranges |} = Ok v.
Proof.
  intros Hm Hv.
  rewrite ResolverFacts.folderForChapter_direct;
    unfold direct_lookup; cbn [chapter_to_title]; now rewrite Hm.
Qed.

Lemma folderForChapter_direct_hit_witness :
  folderForChapter "10"
    {| chapter_to_title := Some {[ "10" := JStr "title1" ]};
       title_ranges :=
         Some ({| start := "1"; end_ := "20"; folder := JStr "title2" |}
               :: {| start := "?"; end_ := "?"; folder := JNull |} :: nil) |}
  = Ok (JStr "title1").
Proof.
  apply folderForChapter_direct_hit; [|reflexivity].
  vm_compute. reflexivity.
Defined.

(** C6: for a valid chapter without a truthy direct value and a list of
    ranges whose bounds are valid chapter strings, [folderForChapter]
    returns the folder of the first entry, in the order of the list, whose
    range contains the chapter, and null when no entry does; it raises no
    error. *)
Theorem folderForChapter_range_scan (chapter : string) (p : payload) :
  valid_chapter chapter ->
  truthy (direct_lookup chapter p) = false ->
  Forall range_wf (default nil (title_ranges p)) ->
  folderForChapter chapter p
  = Ok (match find (range_contains chapter) (default nil (title_ranges p)) with
        | Some tr => folder tr
        | None => JNull
        end).
Proof.
  intros Hc Hd Hwf.
  rewrite ResolverFacts.folderForChapter_scan by assumption.
  now apply ResolverFacts.scan_ranges_find.
Qed.

Lemma folderForChapter_range_scan_witness :
  folderForChapter "261"
    {| chapter_to_title := Some ∅;
       title_ranges :=
         Some ({| start := "1"; end_ := "259-Z"; folder := JStr "title19" |}
               :: {| start := "260"; end_ := "265"; folder := JStr "title20" |}
               :: {| start := "261"; end_ := "261"; folder := JStr "title21" |}
               :: nil) |}
  = Ok (JStr "title20") /\
  folderForChapter "265-b"
    {| chapter_to_title := None;
       title_ranges :=
         Some ({| start := "260"; end_ := "265"; folder := JStr "title20" |}
               :: nil) |}
  = Ok JNull.
Proof.
  assert (H261 : valid_chapter "261") by now constructor.
  assert (H265b : valid_chapter "265-b")
    by now apply (chapter_suffixed letters "265" "b").
  split.
  - rewrite folderForChapter_range_scan;
      [reflexivity | exact H261 | reflexivity |].
    repeat (apply List.Forall_cons || apply List.Forall_nil); split;
      first [ now apply chapter_plain
            | now apply (chapter_suffixed letters "259" "Z") ].
  - rewrite folderForChapter_range_scan;
      [reflexivity | exact H265b | reflexivity |].
    repeat (apply List.Forall_cons || apply List.Forall_nil); split;
      now apply chapter_plain.
Defined.

(** C10: the direct entry counts by the truthiness of its value, not by
    the presence of the key: a key with a truthy value gives that value,
    and a key whose value is falsy is ignored and the ranges are scanned,
    as for "10" mapped to the empty string below, where the same key with
    the value "title9" gives "title9".  A payload without
    [chapter_to_title] goes to the scan without an error, and a payload
    without [title_ranges] is scanned as an empty list, which gives null
    when the key is falsy or, for a chapter that starts with a digit,
    absent. *)
Theorem folderForChapter_truthiness :
  (forall (chapter : string) (m : gmap string jsval) ranges v,
      m !! chapter = Some v ->
      folderForChapter chapter
        {| chapter_to_title := Some m; title_ranges := ranges |}
      = if truthy v then Ok v else scan_ranges chapter (default nil ranges)) /\
  folderForChapter "10"
    {| chapter_to_title := Some {[ "10" := JStr "" ]};
       title_ranges :=
         Some ({| start := "1"; end_ := "20"; folder := JStr "title1" |}
               :: nil) |}
  = Ok (JStr "title1") /\
  folderForChapter "10"
    {| chapter_to_title := Some {[ "10" := JStr "title9" ]};
       title_ranges :=
         Some ({| start := "1"; end_ := "20"; folder := JStr "title1" |}
               :: nil) |}
  = Ok (JStr "title9") /\
  (forall chapter ranges,
      folderForChapter chapter
        {| chapter_to_title := None; title_ranges := ranges |}
      = scan_ranges chapter (default nil ranges)) /\
  (forall (chapter : string) (m : gmap string jsval) v,
      m !! chapter = Some v -> truthy v = false ->
      folderForChapter chapter
        {| chapter_to_title := Some m; title_ranges := None |}
      = Ok JNull) /\
  (forall (chapter : string) (m : gmap string jsval),
      starts_with_digit chapter = true -> m !! chapter = None ->
      folderForChapter chapter
        {| chapter_to_title := Some m; title_ranges := None |}
      = Ok JNull) /\
  (forall chapter,
      folderForChapter chapter
        {| chapter_to_title := None; title_ranges := None |}
      = Ok JNull).
Proof.
  split; [|split; [|split; [|split; [|split; [|split]]]]].
  - intros chapter m ranges v Hm.
    unfold folderForChapter, direct_lookup. cbn [chapter_to_title title_ranges].
    now rewrite Hm.
  - reflexivity.
  - reflexivity.
  - reflexivity.
  - intros chapter m v Hm Hv.
    rewrite ResolverFacts.folderForChapter_scan; [reflexivity|].
    unfold direct_lookup. cbn [chapter_to_title]. now rewrite Hm.
  - intros chapter m _ Hm.
    rewrite ResolverFacts.folderForChapter_scan; [reflexivity|].
    unfold direct_lookup. cbn [chapter_to_title]. now rewrite Hm.
  - reflexivity.
Qed.

Lemma folderForChapter_truthiness_witness :
  folderForChapter "7"
    {| chapter_to_title := Some {[ "7" := JNull ]};
       title_ranges :=
         Some ({| start := "1"; end_ := "9"; folder := JStr "title1" |}
               :: nil) |}
  = Ok (JStr "title1") /\
  folderForChapter "7"
    {| chapter_to_title := Some {[ "7" := JStr "title3" ]};
       title_ranges :=
         Some ({| start := "1"; end_ := "9"; folder := JStr "title1" |}
               :: nil) |}
  = Ok (JStr "title3") /\
  folderForChapter "7"
    {| chapter_to_title := Some {[ "8" := JStr "title2" ]};
       title_ranges := None |}
  = Ok JNull.
Proof.
  split; [|split].
  - rewrite (proj1 folderForChapter_truthiness "7" {[ "7" := JNull ]} _ JNull);
      reflexivity.
  - rewrite (proj1 folderForChapter_truthiness "7" {[ "7" := JStr "title3" ]}
               _ (JStr "title3"));
      reflexivity.
  - apply (proj1 (proj2 (proj2 (proj2 (proj2 (proj2
             folderForChapter_truthiness)))))); reflexivity.
Defined.

(** ** The URL *)

(** C5: [buildUrl] fails exactly when the folder is null, undefined or the
    empty string, and the error is then MissingFolder for the chapter.
    With a folder, it returns BASE/folder/chapter/chapter-section.htm for
    a section and BASE/folder/chapter/chapter-mrg.htm for a null section,
    with the chapter and the section as they are. *)
Theorem buildUrl_spec (chapter : string) (section folder : jsval) :
  (forall e,
      buildUrl chapter section folder = throw e
      <-> (nullish folder \/ folder = JStr "") /\ e = MissingFolder chapter) /\
  (forall f, folder = JStr f -> f <> "" ->
     (forall sec, section = JStr sec -> sec <> "" ->
        buildUrl chapter section folder
        = Ok (BASE +:+ "/" +:+ f +:+ "/" +:+ chapter +:+ "/" +:+ chapter
                +:+ "-" +:+ sec +:+ ".htm")) /\
     (section = JNull ->
        buildUrl chapter section folder
        = Ok (BASE +:+ "/" +:+ f +:+ "/" +:+ chapter +:+ "/" +:+ chapter
                +:+ "-mrg.htm"))).
Proof.
  unfold nullish, throw, Ok. split.
  - intros e. destruct folder as [| |[|c f]]; cbn.
    + split; [intros [= <-]; auto | now intros [_ ->]].
    + split; [intros [= <-]; auto | now intros [_ ->]].
    + split; [intros [= <-]; auto | now intros [_ ->]].
    + split; [destruct (truthy section); discriminate|].
      intros [[[H|H]|H] _]; discriminate.
  - intros f -> Hf. destruct f as [|c f]; [congruence|]. split.
    + intros sec -> Hsec. destruct sec; [congruence | reflexivity].
    + now intros ->.
Qed.

Lemma buildUrl_spec_witness :
  buildUrl "540-a" JNull (JStr "title18")
  = Ok "https://gc.nh.gov/rsa/html/title18/540-a/540-a-mrg.htm" /\
  buildUrl "225-a" (JStr "24") (JStr "title19")
  = Ok "https://gc.nh.gov/rsa/html/title19/225-a/225-a-24.htm" /\
  buildUrl "265-b" JNull JNull = throw (MissingFolder "265-b").
Proof.
  split; [|split].
  - apply (proj2 (buildUrl_spec "540-a" JNull (JStr "title18")) "title18");
      [reflexivity | discriminate | reflexivity].
  - apply (proj1 (proj2 (buildUrl_spec "225-a" (JStr "24") (JStr "title19"))
                    "title19" eq_refl ltac:(discriminate)) "24");
      [reflexivity | discriminate].
  - apply (proj1 (buildUrl_spec "265-b" JNull JNull)).
    split; [left; left|]; reflexivity.
Defined.

(** * The scenarios of the specification *)

Module Scenarios.

Example citation_with_spaces :
  parseRSA (JStr "  RSA 225-A : 24 ")
  = Ok {| chapter := "225-a"; section := JStr "24" |}.
Proof. reflexivity. Qed.

Example citation_with_prefix :
  parseRSA (JStr "rsa225-a:24-a")
  = Ok {| chapter := "225-a"; section := JStr "24-a" |}.
Proof. reflexivity. Qed.

Example chapter_only :
  parseRSA (JStr "225") = Ok {| chapter := "225"; section := JNull |}.
Proof. reflexivity. Qed.

Example letters_only : parseRSA (JStr "abc") = throw ParseError.
Proof. reflexivity. Qed.

Example empty_input :
  parseRSA (JStr "") = throw ParseError /\
  parseRSA JNull = throw ParseError /\
  parseRSA JUndefined = throw ParseError.
Proof. repeat split. Qed.

Example exact_key :
  resolve (JStr "540-a") scenario_mapping
  = Ok "https://gc.nh.gov/rsa/html/title18/540-a/540-a-mrg.htm".
Proof. reflexivity. Qed.

Example range_hit :
  resolve (JStr "261") scenario_mapping
  = Ok "https://gc.nh.gov/rsa/html/title20/261/261-mrg.htm".
Proof. reflexivity. Qed.

Example not_covered :
  folderForChapter "265-b" scenario_mapping = Ok JNull /\
  resolve (JStr "265-b") scenario_mapping = throw (MissingFolder "265-b").
Proof. split; reflexivity. Qed.

Example not_a_statute p :
  resolve (JStr "not a statute") p = throw ParseError.
Proof. reflexivity. Qed.

(** A bound that is not a chapter stops the scan with an error. *)
Example malformed_bound :
  folderForChapter "261"
    {| chapter_to_title := None;
       title_ranges :=
         Some ({| start := "a"; end_ := "b"; folder := JStr "title1" |}
               :: nil) |}
  = throw (BadChapterFormat "a").
Proof. reflexivity. Qed.

End Scenarios.

(** * Further properties of the program *)

Module MoreFacts.
Import Direct Char.

Lemma section_char_no_space c :
  is_section_char c = true -> is_space c = false.
Proof. each_char c. Qed.

Lemma section_char_lower c :
  is_section_char c = true -> is_url_char (lower c) = true.
Proof. each_char c. Qed.

Lemma url_char_section c : is_url_char c = true -> is_section_char c = true.
Proof. each_char c. Qed.

Lemma url_char_lower c : is_url_char c = true -> lower c = c.
Proof. each_char c. Qed.

Lemma digit_section_char c : is_digit c = true -> is_section_char c = true.
Proof. each_char c. Qed.

Lemma letter_section_char c : is_letter c = true -> is_section_char c = true.
Proof. each_char c. Qed.

Lemma digit_not_r c : is_digit c = true -> c <> "r"%char.
Proof. intros H ->. discriminate H. Qed.

Lemma position_lower c :
  is_letter c = true -> letter_position (lower c) = letter_position c.
Proof. each_char c. Qed.

Lemma upper_of_position c :
  is_letter c = true ->
  String.eqb (upper c)
    (String (ascii_of_N (Z.to_N (letter_position c + 64))) EmptyString) = true.
Proof. each_char c. Qed.

Lemma upper_is_letter c : is_upper c = true -> is_letter c = true.
Proof. each_char c. Qed.

Lemma upper_upper c : is_upper c = true -> upper c = String c EmptyString.
Proof. each_char c. Qed.

(** [normalize] on a string, in one step. *)
Lemma normalize_str s :
  normalize (JStr s) = Ok (Str.toLowerCase (Str.remove_space_runs s)).
Proof.
  rewrite NormalizeFacts.normalize_eq, NormalizeFacts.remove_lower,
    NormalizeFacts.remove_trim.
  now destruct s.
Qed.

Lemma remove_no_space_id s :
  Str.all not_space s = true -> Str.remove_space_runs s = s.
Proof.
  induction s as [|c s IH]; [reflexivity|]. cbn [Str.all Str.remove_space_runs].
  intros [Hc Hs]%andb_true_iff. unfold not_space in Hc.
  apply negb_true_iff in Hc. now rewrite Hc, IH.
Qed.

Lemma all_impl (p q : ascii -> bool) s :
  (forall c, p c = true -> q c = true) ->
  Str.all p s = true -> Str.all q s = true.
Proof.
  intros Hpq. induction s as [|c s IH]; [reflexivity|]. cbn [Str.all].
  intros [Hc Hs]%andb_true_iff. now rewrite (Hpq _ Hc), IH.
Qed.

Lemma all_lower (p q : ascii -> bool) s :
  (forall c, p c = true -> q (lower c) = true) ->
  Str.all p s = true -> Str.all q (Str.toLowerCase s) = true.
Proof.
  intros Hpq. induction s as [|c s IH]; [reflexivity|].
  cbn [Str.all Str.toLowerCase].
  intros [Hc Hs]%andb_true_iff. now rewrite (Hpq _ Hc), IH.
Qed.

Lemma lower_fixed s :
  Str.all is_url_char s = true -> Str.toLowerCase s = s.
Proof.
  induction s as [|c s IH]; [reflexivity|]. cbn [Str.all Str.toLowerCase].
  intros [Hc Hs]%andb_true_iff. now rewrite (url_char_lower _ Hc), IH.
Qed.

(** The characters of a chapter of the grammar. *)
Lemma chapter_chars suffix_ok ch :
  (forall suf, suffix_ok suf = true -> Str.all is_letter suf = true) ->
  is_chapter suffix_ok ch ->
  Str.all is_section_char ch = true /\
  exists d rest, ch = String d rest /\ is_digit d = true.
Proof.
  intros Hok [ds Hd|ds suf Hd Hsuf];
    apply GrammarFacts.digits_inv in Hd as [Hne Hall].
  - split; [now apply (all_impl _ _ _ digit_section_char)|].
    destruct ds as [|d ds]; [discriminate|].
    cbn [Str.all] in Hall. apply andb_true_iff in Hall as [Hd _]. eauto.
  - split.
    + rewrite !StrFacts.all_app_eq.
      rewrite (all_impl _ _ _ digit_section_char Hall).
      now rewrite (all_impl _ _ _ letter_section_char (Hok _ Hsuf)).
    + destruct ds as [|d ds]; [discriminate|].
      cbn [Str.all] in Hall. apply andb_true_iff in Hall as [Hd _].
      exists d, (ds +:+ "-" +:+ suf). now split.
Qed.

Lemma one_letter_letters suf :
  one_letter suf = true -> Str.all is_letter suf = true.
Proof.
  destruct suf as [|l [|]]; try discriminate. cbn. now intros ->.
Qed.

End MoreFacts.

(** ** The parser *)

Module MoreParseFacts.
Import Direct Char MoreFacts.

Lemma text_char_no_space c : is_text_char c = true -> not_space c = true.
Proof. each_char c. Qed.

Lemma text_char_lower c : is_text_char c = true -> lower c = c.
Proof. each_char c. Qed.

Lemma url_char_text c : is_url_char c = true -> is_text_char c = true.
Proof. unfold is_text_char. now intros ->. Qed.

Lemma section_char_lower_section c :
  is_section_char c = true -> is_section_char (lower c) = true.
Proof. each_char c. Qed.

Lemma text_fixed s :
  Str.all is_text_char s = true ->
  Str.toLowerCase (Str.remove_space_runs s) = s.
Proof.
  intros H.
  rewrite remove_no_space_id by exact (all_impl _ _ _ text_char_no_space H).
  induction s as [|c s IH]; [reflexivity|].
  cbn [Str.all Str.toLowerCase] in *.
  apply andb_true_iff in H as [Hc Hs]. now rewrite (text_char_lower _ Hc), IH.
Qed.

Lemma strip_rsa_digit d r :
  is_digit d = true -> strip_rsa (String d r) = String d r.
Proof.
  intros Hd. unfold strip_rsa, Str.startsWith. cbn [String.prefix].
  destruct (ascii_dec "r" d) as [<-|]; [discriminate Hd | reflexivity].
Qed.

Lemma chapter_lower ch :
  is_chapter one_letter ch -> is_chapter one_letter (Str.toLowerCase ch).
Proof.
  intros [ds Hd|ds suf Hd Hsuf];
    pose proof Hd as [Hne Hall]%GrammarFacts.digits_inv.
  - rewrite StrFacts.toLowerCase_digits by assumption. now constructor.
  - rewrite !StrFacts.toLowerCase_app, StrFacts.toLowerCase_digits
      by assumption.
    apply (chapter_suffixed one_letter ds (Str.toLowerCase suf)); [assumption|].
    destruct suf as [|l [|]]; try discriminate. cbn in *.
    exact (CharFacts.lower_is_letter _ (CharFacts.lower_letter _ Hsuf)).
Qed.

Lemma section_lower t :
  is_section t = true -> is_section (Str.toLowerCase t) = true.
Proof.
  unfold is_section. intros [Hne Hall]%andb_true_iff.
  rewrite StrFacts.is_empty_toLowerCase, Hne.
  exact (all_lower _ _ _ section_char_lower_section Hall).
Qed.

(** What a parsed citation is made of. *)
Lemma parsed_shape input c :
  parseRSA input = Ok c ->
  exists ch sec,
    is_chapter one_letter ch /\
    match sec with Some t => is_section t = true | None => True end /\
    c = cite ch sec.
Proof.
  intros Hp.
  apply (ParseFacts.parseRSA_ok _ _ _ (NormalizeFacts.normalize_eq input)) in Hp
    as (ch & sec & Hcit & ->).
  exists ch, sec. inversion Hcit; subst; auto.
Qed.

Lemma parseRSA_text ch sec :
  is_chapter one_letter ch ->
  match sec with Some t => is_section t = true | None => True end ->
  parseRSA (JStr (citation_text (cite ch sec))) = Ok (cite ch sec).
Proof.
  intros Hch Hsec.
  apply chapter_lower in Hch.
  destruct (chapter_chars one_letter _ one_letter_letters Hch)
    as (Hall & d & rest & Hd & Hdig).
  assert (Hurl : Str.all is_url_char (Str.toLowerCase (Str.toLowerCase ch)) = true)
    by exact (all_lower _ _ _ section_char_lower Hall).
  rewrite StrFacts.toLowerCase_idem in Hurl.
  set (text := citation_text (cite ch sec)).
  assert (Htext : Str.all is_text_char text = true).
  { unfold text, citation_text. cbn [cite chapter section].
    rewrite StrFacts.all_app_eq, (all_impl _ _ _ url_char_text Hurl).
    destruct sec as [t|]; [|reflexivity]. cbn [andb String.append Str.all].
    apply section_lower in Hsec. apply andb_true_iff in Hsec as [_ Ht].
    apply (all_lower _ _ _ section_char_lower) in Ht.
    rewrite StrFacts.toLowerCase_idem in Ht.
    exact (all_impl _ _ _ url_char_text Ht). }
  apply (ParseFacts.parseRSA_ok _ text).
  { now rewrite normalize_str, text_fixed. }
  exists (Str.toLowerCase ch),
    (match sec with Some t => Some (Str.toLowerCase t) | None => None end).
  split.
  - assert (Hstrip : strip_rsa text = text).
    { unfold text, citation_text. cbn [cite chapter]. rewrite Hd.
      cbn [String.append]. now apply strip_rsa_digit. }
    rewrite Hstrip. unfold text, citation_text. cbn [cite chapter section].
    destruct sec as [t|].
    + apply citation_section; [assumption | now apply section_lower].
    + rewrite StrFacts.app_nil_r. now apply citation_chapter.
  - unfold cite. rewrite StrFacts.toLowerCase_idem.
    destruct sec as [t|]; [|reflexivity].
    now rewrite StrFacts.toLowerCase_idem.
Qed.

End MoreParseFacts.

(** X1: [parseRSA] reads neither white space nor case: two inputs with the
    same lower-cased sequence of non-white-space code units give the same
    citation or the same error. *)
Theorem parseRSA_ignores_space_and_case (s t : string) :
  Str.toLowerCase (Str.remove_space_runs s)
  = Str.toLowerCase (Str.remove_space_runs t) ->
  parseRSA (JStr s) = parseRSA (JStr t).
Proof.
  intros H. unfold parseRSA. now rewrite !MoreFacts.normalize_str, H.
Qed.

Lemma parseRSA_ignores_space_and_case_witness :
  parseRSA (JStr " R S A 2 2 5 - a :24") = parseRSA (JStr "rsa225-A:24").
Proof. apply parseRSA_ignores_space_and_case. reflexivity. Defined.

(** X2: the result of [normalize] is a fixed point of [normalize]. *)
Theorem normalize_idempotent (v : jsval) (out : string) :
  normalize v = Ok out -> normalize (JStr out) = Ok out.
Proof.
  rewrite NormalizeFacts.normalize_eq, NormalizeFacts.remove_lower,
    NormalizeFacts.remove_trim.
  intros [= <-].
  rewrite MoreFacts.normalize_str, NormalizeFacts.remove_lower,
    StrFacts.toLowerCase_idem.
  now rewrite MoreFacts.remove_no_space_id
    by apply NormalizeFacts.remove_no_space.
Qed.

Lemma normalize_idempotent_witness :
  normalize (JStr "rsa225-a:24") = Ok "rsa225-a:24".
Proof.
  apply (normalize_idempotent (JStr "  RSA 225-A : 24 ")). reflexivity.
Defined.

(** X3: parsing the text of a parsed citation, the chapter followed by a
    colon and the section when there is one, gives the same citation. *)
Theorem parseRSA_round_trip (input : jsval) (c : citation) :
  parseRSA input = Ok c -> parseRSA (JStr (citation_text c)) = Ok c.
Proof.
  intros (ch & sec & Hch & Hsec & ->)%MoreParseFacts.parsed_shape.
  now apply MoreParseFacts.parseRSA_text.
Qed.

Lemma parseRSA_round_trip_witness :
  parseRSA (JStr "225-a:24-b")
  = Ok {| chapter := "225-a"; section := JStr "24-b" |}.
Proof.
  apply (parseRSA_round_trip (JStr " RSA 225-A : 24-B ")
           {| chapter := "225-a"; section := JStr "24-b" |}).
  reflexivity.
Defined.

(** X4: a parsed chapter starts with a digit, and a parsed chapter and a
    parsed section hold nothing but digits, lower-case letters a to z and
    hyphens; the section is null or a non-empty string. *)
Theorem parsed_citation_chars (input : jsval) (c : citation) :
  parseRSA input = Ok c ->
  Str.all is_url_char (chapter c) = true /\
  (exists d rest, chapter c = String d rest /\ Char.is_digit d = true) /\
  match section c with
  | JStr s => s <> "" /\ Str.all is_url_char s = true
  | JNull => True
  | JUndefined => False
  end.
Proof.
  intros (ch & sec & Hch & Hsec & ->)%MoreParseFacts.parsed_shape.
  apply MoreParseFacts.chapter_lower in Hch.
  destruct (MoreFacts.chapter_chars one_letter _ MoreFacts.one_letter_letters Hch)
    as (Hall & Hd).
  cbn [cite chapter section]. split; [|split; [exact Hd|]].
  - apply (MoreFacts.all_lower _ _ _ MoreFacts.section_char_lower) in Hall.
    now rewrite StrFacts.toLowerCase_idem in Hall.
  - destruct sec as [t|]; [|exact I].
    apply andb_true_iff in Hsec as [Hne Ht]. split.
    + destruct t; [discriminate | discriminate].
    + exact (MoreFacts.all_lower _ _ _ MoreFacts.section_char_lower Ht).
Qed.

Lemma parsed_citation_chars_witness :
  Str.all is_url_char "225-a" = true /\
  exists d rest, "225-a" = String d rest /\ Char.is_digit d = true.
Proof.
  pose proof (parsed_citation_chars (JStr "RSA 225-A:24")
                {| chapter := "225-a"; section := JStr "24" |} eq_refl)
    as (H1 & H2 & _).
  exact (conj H1 H2).
Defined.

(** X5: the prefix "rsa" is taken off once.  In front of an input whose
    normal form does not start with "rsa" it changes nothing; in front of
    one whose normal form starts with "rsa" it makes the input a
    ParseError, whatever follows. *)
Theorem rsa_prefix_once (s n : string) :
  normalize (JStr s) = Ok n ->
  (Str.startsWith n "rsa" = false ->
   parseRSA (JStr ("rsa" +:+ s)) = parseRSA (JStr s)) /\
  (Str.startsWith n "rsa" = true ->
   parseRSA (JStr ("rsa" +:+ s)) = throw ParseError).
Proof.
  intros Hn.
  assert (Hp : normalize (JStr ("rsa" +:+ s)) = Ok ("rsa" +:+ n)).
  { rewrite MoreFacts.normalize_str in *. injection Hn as <-. reflexivity. }
  rewrite (ParseFacts.parseRSA_split _ _ Hp), (ParseFacts.parseRSA_split _ _ Hn).
  assert (Hstrip : strip_rsa ("rsa" +:+ n) = n).
  { unfold strip_rsa, Str.startsWith.
    replace (String.prefix "rsa" ("rsa" +:+ n)) with true
      by (destruct n; reflexivity).
    now destruct n. }
  rewrite Hstrip. split; intros H.
  - unfold strip_rsa. now rewrite H.
  - unfold Str.startsWith in H. destruct n as [|a n]; [discriminate H|].
    cbn [String.prefix] in H.
    destruct (ascii_dec "r" a) as [<-|]; [reflexivity | discriminate H].
Qed.

Lemma rsa_prefix_once_witness :
  parseRSA (JStr "rsa225-a") = parseRSA (JStr "225-a") /\
  parseRSA (JStr "rsaRSA 225-a") = throw ParseError.
Proof.
  split.
  - apply (proj1 (rsa_prefix_once "225-a" "225-a" eq_refl)). reflexivity.
  - apply (proj2 (rsa_prefix_once "RSA 225-a" "rsa225-a" eq_refl)). reflexivity.
Defined.

(** ** Chapter tokens *)

Module MoreTokenFacts.
Import Direct Char MoreFacts.

Lemma toUpperCase_uppers suf :
  Str.all is_upper suf = true -> Str.toUpperCase suf = suf.
Proof.
  induction suf as [|c suf IH]; [reflexivity|]. cbn [Str.all Str.toUpperCase].
  intros [Hc Hs]%andb_true_iff. now rewrite (upper_upper _ Hc), IH.
Qed.

Lemma suffix_loop_ordinal suf :
  Str.all is_upper suf = true -> suffix_ordinal suf <= 2 ^ 53 ->
  suffix_loop 0 suf = suffix_ordinal suf.
Proof.
  intros H Hb.
  rewrite <- (toUpperCase_uppers _ H) at 1.
  apply TokenFacts.suffix_loop_exact;
    [exact (all_impl _ _ _ upper_is_letter H) | lia | exact Hb].
Qed.

Lemma toUpperCase_chapter_string ds suf :
  digits ds = true -> Str.all is_upper suf = true ->
  Str.toUpperCase (chapter_string ds suf) = chapter_string ds suf.
Proof.
  intros [_ Hall]%GrammarFacts.digits_inv Hup. unfold chapter_string.
  destruct (Str.is_empty suf).
  - now apply StrFacts.toUpperCase_digits.
  - now rewrite TokenFacts.toUpperCase_chapter, toUpperCase_uppers.
Qed.

(** What [chapter_re] matches. *)
Lemma chapter_split_sound u g1 g2 :
  chapter_split u = Some (g1, g2) ->
  digits g1 = true /\
  exists suf, Str.all is_upper suf = true /\ u = chapter_string g1 suf /\
              g2 = (if Str.is_empty suf then None else Some suf).
Proof.
  unfold chapter_split.
  pose proof (StrFacts.takeWhile_dropWhile is_digit u) as Hu.
  pose proof (StrFacts.all_takeWhile is_digit u) as Hds.
  destruct (Str.is_empty (Str.takeWhile is_digit u)) eqn:Hne; [discriminate|].
  destruct (tail_split _ _ _) as [g|] eqn:E; [|discriminate].
  intros [= <- <-]. split; [unfold digits; now rewrite Hne, Hds|].
  apply GrammarFacts.tail_split_inv in E as [[E ->]|(r & E & -> & Hr)];
    rewrite E in Hu.
  - exists "". rewrite StrFacts.app_nil_r in Hu. now repeat split.
  - apply andb_true_iff in Hr as [Hr1 Hr2]. apply negb_true_iff in Hr1.
    exists r. unfold chapter_string. rewrite Hr1. now repeat split.
Qed.

(** The token depends on the upper-cased chapter only. *)
Lemma chapterToken_upper c1 c2 t :
  Str.toUpperCase c1 = Str.toUpperCase c2 ->
  chapterToken c2 = Ok t -> chapterToken c1 = Ok t.
Proof.
  unfold chapterToken. intros ->.
  destruct (exec false chapter_re (Str.toUpperCase c2)); [auto | discriminate].
Qed.

Lemma chapterToken_ok_shape c :
  (exists t, chapterToken c = Ok t)
  <-> exists ds suf,
        digits ds = true /\ Str.all is_upper suf = true /\
        Str.toUpperCase c = chapter_string ds suf.
Proof.
  split.
  - intros [t Ht]. revert Ht.
    unfold chapterToken. rewrite PatternFacts.exec_chapter_re.
    destruct (chapter_split (Str.toUpperCase c)) as [[g1 g2]|] eqn:E;
      [|discriminate].
    apply chapter_split_sound in E as (Hd & suf & Hup & Hu & _).
    intros _. now exists g1, suf.
  - intros (ds & suf & Hd & Hup & Hu).
    eexists. apply (chapterToken_upper c (chapter_string ds suf)).
    + now rewrite toUpperCase_chapter_string.
    + apply TokenFacts.chapterToken_string_double; [assumption|].
      exact (all_impl _ _ _ upper_is_letter Hup).
Qed.

Lemma chapterToken_ok_exact c ds suf :
  digits ds = true -> Str.all is_upper suf = true ->
  Str.toUpperCase c = chapter_string ds suf ->
  decimal_value ds <= 2 ^ 53 -> suffix_ordinal suf <= 2 ^ 53 ->
  chapterToken c = Ok (Num (decimal_value ds), suffix_ordinal suf).
Proof.
  intros Hd Hup Hu Hbd Hbs.
  apply (chapterToken_upper c (chapter_string ds suf)).
  - now rewrite toUpperCase_chapter_string.
  - apply TokenFacts.chapterToken_string; try assumption.
    exact (all_impl _ _ _ upper_is_letter Hup).
Qed.

Lemma chapterToken_error c e :
  chapterToken c = throw e -> e = BadChapterFormat c.
Proof.
  unfold chapterToken.
  destruct (exec false chapter_re (Str.toUpperCase c)); [discriminate|].
  now intros [= <-].
Qed.

Lemma chapterToken_cases c :
  (exists t, chapterToken c = Ok t) \/ chapterToken c = throw (BadChapterFormat c).
Proof.
  unfold chapterToken.
  destruct (exec false chapter_re (Str.toUpperCase c)); eauto.
Qed.

Lemma upper_lower c : upper (lower c) = upper c.
Proof. each_char c. Qed.

Lemma toUpperCase_lower s :
  Str.toUpperCase (Str.toLowerCase s) = Str.toUpperCase s.
Proof.
  induction s as [|c s IH]; [reflexivity|].
  cbn [Str.toLowerCase Str.toUpperCase]. now rewrite upper_lower, IH.
Qed.

Lemma chapterToken_lower c :
  valid_chapter c -> chapterToken (Str.toLowerCase c) = chapterToken c.
Proof.
  intros (z & n & Ht)%TokenFacts.chapterToken_valid. rewrite Ht.
  apply (chapterToken_upper _ c); [apply toUpperCase_lower | exact Ht].
Qed.

Lemma decimal_value_zero ds : decimal_value (String "0" ds) = decimal_value ds.
Proof. cbn [decimal_value]. change (digit_value "0") with 0. lia. Qed.

Lemma token_le_antisym (t1 t2 : token) z1 z2 :
  fst t1 = Num z1 -> fst t2 = Num z2 ->
  token_le t1 t2 = true -> token_le t2 t1 = true -> t1 = t2.
Proof.
  destruct t1 as [b1 n1], t2 as [b2 n2]. cbn [fst]. intros -> ->.
  intros H12%TokenFacts.token_le_iff H21%TokenFacts.token_le_iff.
  f_equal; [f_equal|]; lia.
Qed.

End MoreTokenFacts.

(** X6: [chapterToken] returns a token exactly for the chapters whose
    upper-cased text is a run of digits, optionally followed by a hyphen
    and upper-case letters A to Z; when the value of the digits and the
    ordinal of the letters are at most 2^53, the token is this value and
    this ordinal.  For every other chapter it fails, and the error is
    BadChapterFormat with the chapter as it was given. *)
Theorem chapterToken_accepts (c : string) :
  ((exists t, chapterToken c = Ok t)
   <-> exists ds suf,
         digits ds = true /\ Str.all Char.is_upper suf = true /\
         Str.toUpperCase c = chapter_string ds suf) /\
  (forall ds suf,
      digits ds = true -> Str.all Char.is_upper suf = true ->
      Str.toUpperCase c = chapter_string ds suf ->
      decimal_value ds <= 2 ^ 53 -> suffix_ordinal suf <= 2 ^ 53 ->
      chapterToken c = Ok (Num (decimal_value ds), suffix_ordinal suf)) /\
  (forall e, chapterToken c = throw e -> e = BadChapterFormat c) /\
  ((exists t, chapterToken c = Ok t) \/
   chapterToken c = throw (BadChapterFormat c)).
Proof.
  split; [|split; [|split]].
  - apply MoreTokenFacts.chapterToken_ok_shape.
  - apply MoreTokenFacts.chapterToken_ok_exact.
  - intros e. apply MoreTokenFacts.chapterToken_error.
  - apply MoreTokenFacts.chapterToken_cases.
Qed.

Lemma chapterToken_accepts_witness : chapterToken "21-j" = Ok (Num 21, 10).
Proof.
  apply (proj1 (proj2 (chapterToken_accepts "21-j")) "21" "J");
    [reflexivity | reflexivity | reflexivity | vm_compute; discriminate
    | vm_compute; discriminate].
Defined.

(** X7: the case of the bounds does not matter to [inRange]: with valid
    bounds, the lower-cased bounds that [folderForChapter] passes give the
    same result as the bounds as written. *)
Theorem inRange_lower_bounds (c a b : string) :
  valid_chapter a -> valid_chapter b ->
  inRange c (Str.toLowerCase a) (Str.toLowerCase b) = inRange c a b.
Proof.
  intros Ha Hb. unfold inRange.
  now rewrite !MoreTokenFacts.chapterToken_lower.
Qed.

Lemma inRange_lower_bounds_witness :
  inRange "21-j" "21-a" "21-z" = inRange "21-j" "21-A" "21-Z".
Proof.
  apply (inRange_lower_bounds "21-j" "21-A" "21-Z");
    [now apply (chapter_suffixed letters "21" "A")
    |now apply (chapter_suffixed letters "21" "Z")].
Defined.

(** X8: zeros in front of a valid chapter do not change its token, so
    the chapter 0261 lies in the same ranges as 261. *)
Theorem chapterToken_leading_zero (c : string) :
  valid_chapter c -> chapterToken (String "0" c) = chapterToken c.
Proof.
  intros (ds & suf & Hd & Hl & ->)%TokenFacts.valid_chapter_inv.
  assert (Hd0 : digits (String "0" ds) = true).
  { apply GrammarFacts.digits_inv in Hd as [_ Hall].
    unfold digits. cbn. exact Hall. }
  replace (String "0" (chapter_string ds suf))
    with (chapter_string (String "0" ds) suf)
    by (unfold chapter_string; now destruct (Str.is_empty suf)).
  rewrite !TokenFacts.chapterToken_string_double by assumption.
  now rewrite MoreTokenFacts.decimal_value_zero.
Qed.

Lemma chapterToken_leading_zero_witness :
  chapterToken "0261" = chapterToken "261".
Proof. apply chapterToken_leading_zero. now constructor. Defined.

(** X9: the order on chapters is antisymmetric on tokens: two chapters
    that are each below the other have the same token. *)
Theorem chapter_le_antisym (c1 c2 : string) :
  chapter_le c1 c2 -> chapter_le c2 c1 -> chapterToken c1 = chapterToken c2.
Proof.
  intros (t1 & t2 & H1 & H2 & H12) (t2' & t1' & H2' & H1' & H21).
  assert (t2' = t2) as -> by (unfold Ok in *; congruence).
  assert (t1' = t1) as -> by (unfold Ok in *; congruence).
  destruct (TokenFacts.chapterToken_base _ _ H1) as [z1 E1].
  destruct (TokenFacts.chapterToken_base _ _ H2) as [z2 E2].
  rewrite H1, H2. f_equal.
  exact (MoreTokenFacts.token_le_antisym _ _ _ _ E1 E2 H12 H21).
Qed.

Lemma chapter_le_antisym_witness : chapterToken "0225-A" = chapterToken "225-a".
Proof.
  apply chapter_le_antisym; eexists _, _; repeat split; reflexivity.
Defined.

Module OrdinalFacts.
Import Char MoreFacts.

Lemma all_forallb p s : Str.all p s = forallb p (list_ascii_of_string s).
Proof. induction s; simpl; congruence. Qed.

Lemma length_list s : length (list_ascii_of_string s) = String.length s.
Proof. induction s; simpl; congruence. Qed.

Lemma position_range c :
  is_letter c = true -> 1 <= letter_position c <= 26.
Proof.
  intros [H1 H2]%CharFacts.letter_position_range%andb_true_iff.
  apply Z.leb_le in H1, H2. lia.
Qed.

Lemma forallb_snoc (p : ascii -> bool) l x :
  forallb p (l ++ x :: nil) = true -> forallb p l = true /\ p x = true.
Proof.
  rewrite forallb_app. cbn. rewrite andb_true_r. apply andb_true_iff.
Qed.

Lemma fold_snoc l x :
  fold_left step (l ++ x :: nil) 0
  = fold_left step l 0 * 26 + letter_position x.
Proof. now rewrite fold_left_app. Qed.

(** The least and the greatest ordinal of a suffix of a given length. *)
Lemma ordinal_bounds l :
  forallb is_letter l = true ->
  26 ^ Z.of_nat (length l) - 1 <= 25 * fold_left step l 0
  <= 26 * (26 ^ Z.of_nat (length l) - 1).
Proof.
  induction l as [|x l IH] using rev_ind; [intros _; cbn; lia|].
  intros [Hl Hx]%forallb_snoc. specialize (IH Hl).
  apply position_range in Hx.
  rewrite fold_snoc, length_app, Nat2Z.inj_add. cbn [length].
  change (Z.of_nat 1) with 1. rewrite Z.pow_add_r, Z.pow_1_r by lia.
  lia.
Qed.

Lemma ordinal_shortlex l1 l2 :
  forallb is_letter l1 = true -> forallb is_letter l2 = true ->
  (length l1 < length l2)%nat ->
  fold_left step l1 0 < fold_left step l2 0.
Proof.
  intros H1%ordinal_bounds H2%ordinal_bounds Hlen.
  assert (26 * 26 ^ Z.of_nat (length l1) <= 26 ^ Z.of_nat (length l2)).
  { rewrite <- Z.pow_succ_r by lia. apply Z.pow_le_mono_r; lia. }
  lia.
Qed.

(** Two runs of letters with the same ordinal have the same positions. *)
Lemma ordinal_injective l1 :
  forall l2,
    forallb is_letter l1 = true -> forallb is_letter l2 = true ->
    fold_left step l1 0 = fold_left step l2 0 ->
    map letter_position l1 = map letter_position l2.
Proof.
  induction l1 as [|x l1 IH] using rev_ind;
    intros l2; destruct l2 as [|y l2 _] using rev_ind.
  - reflexivity.
  - intros _ H2 E. pose proof (ordinal_bounds _ H2) as B.
    rewrite <- E, length_app, Nat2Z.inj_add in B. cbn in B.
    rewrite Z.pow_add_r, Z.pow_1_r in B by lia.
    assert (0 < 26 ^ Z.of_nat (length l2)) by (apply Z.pow_pos_nonneg; lia).
    lia.
  - intros H1 _ E. pose proof (ordinal_bounds _ H1) as B.
    rewrite E, length_app, Nat2Z.inj_add in B. cbn in B.
    rewrite Z.pow_add_r, Z.pow_1_r in B by lia.
    assert (0 < 26 ^ Z.of_nat (length l1)) by (apply Z.pow_pos_nonneg; lia).
    lia.
  - intros [H1 Hx]%forallb_snoc [H2 Hy]%forallb_snoc E.
    rewrite !fold_snoc in E.
    apply position_range in Hx, Hy.
    assert (fold_left step l1 0 = fold_left step l2 0) by lia.
    rewrite !map_app, (IH l2) by assumption. cbn. do 2 f_equal. lia.
Qed.

Lemma upper_by_position c :
  is_letter c = true ->
  upper c = String (ascii_of_N (Z.to_N (letter_position c + 64))) EmptyString.
Proof. intros H. now apply String.eqb_eq, upper_of_position. Qed.

Lemma upper_by_positions s1 :
  forall s2,
    Str.all is_letter s1 = true -> Str.all is_letter s2 = true ->
    map letter_position (list_ascii_of_string s1)
    = map letter_position (list_ascii_of_string s2) ->
    Str.toUpperCase s1 = Str.toUpperCase s2.
Proof.
  induction s1 as [|c1 s1 IH]; intros [|c2 s2]; try discriminate;
    [reflexivity|].
  cbn [Str.all list_ascii_of_string map Str.toUpperCase].
  intros [Hc1 H1]%andb_true_iff [Hc2 H2]%andb_true_iff [= Ec E].
  now rewrite (upper_by_position _ Hc1), (upper_by_position _ Hc2), Ec,
    (IH s2).
Qed.

Lemma token_lt_iff z1 n1 z2 n2 :
  token_lt (Num z1, n1) (Num z2, n2) = true
  <-> z1 < z2 \/ (z1 = z2 /\ n1 < n2).
Proof.
  unfold token_lt. rewrite andb_true_iff, negb_true_iff.
  rewrite TokenFacts.token_le_iff, <- not_true_iff_false,
    TokenFacts.token_le_iff.
  lia.
Qed.

End OrdinalFacts.

(** X10: within 2^53 the token tells valid chapters apart: two valid
    chapters whose digit values and suffix ordinals are at most 2^53 and
    whose tokens are equal have digits of the same value and the same
    suffix letters, up to case. *)
Theorem chapterToken_injective (ds1 suf1 ds2 suf2 : string) :
  digits ds1 = true -> Str.all Char.is_letter suf1 = true ->
  digits ds2 = true -> Str.all Char.is_letter suf2 = true ->
  decimal_value ds1 <= 2 ^ 53 -> suffix_ordinal suf1 <= 2 ^ 53 ->
  decimal_value ds2 <= 2 ^ 53 -> suffix_ordinal suf2 <= 2 ^ 53 ->
  chapterToken (chapter_string ds1 suf1) = chapterToken (chapter_string ds2 suf2) ->
  decimal_value ds1 = decimal_value ds2 /\
  Str.toUpperCase suf1 = Str.toUpperCase suf2.
Proof.
  intros Hd1 Hl1 Hd2 Hl2 Hbd1 Hbs1 Hbd2 Hbs2.
  rewrite !TokenFacts.chapterToken_string by assumption.
  intros [= Ed Es]. split; [assumption|].
  apply OrdinalFacts.upper_by_positions; try assumption.
  apply OrdinalFacts.ordinal_injective;
    rewrite <- ?OrdinalFacts.all_forallb; assumption.
Qed.

Lemma chapterToken_injective_witness :
  decimal_value "225" = decimal_value "0225" /\
  Str.toUpperCase "aB" = Str.toUpperCase "Ab".
Proof.
  apply (chapterToken_injective "225" "aB" "0225" "Ab");
    try reflexivity; vm_compute; discriminate.
Defined.

(** X11: among valid chapters with the same digits and suffix ordinals of
    at most 2^53, a chapter with fewer suffix letters comes strictly before
    a chapter with more of them: the plain chapter before every suffixed
    one, and every one-letter suffix before every two-letter suffix. *)
Theorem chapter_order_by_suffix_length (ds suf1 suf2 : string) :
  digits ds = true ->
  Str.all Char.is_letter suf1 = true -> Str.all Char.is_letter suf2 = true ->
  suffix_ordinal suf2 <= 2 ^ 53 ->
  (String.length suf1 < String.length suf2)%nat ->
  chapter_lt (chapter_string ds suf1) (chapter_string ds suf2).
Proof.
  intros Hd Hl1 Hl2 Hb2 Hlen.
  assert (Hlt : suffix_ordinal suf1 < suffix_ordinal suf2).
  { apply OrdinalFacts.ordinal_shortlex;
      rewrite <- ?OrdinalFacts.all_forallb, ?OrdinalFacts.length_list;
      assumption. }
  assert (H0 : 0 <= suffix_ordinal suf1)
    by exact (TokenFacts.fold_position_ge suf1 0 Hl1 ltac:(lia)).
  eexists _, _. split; [|split].
  - now apply TokenFacts.chapterToken_string_double.
  - now apply TokenFacts.chapterToken_string_double.
  - unfold suffix_ordinal in *.
    rewrite !TokenFacts.suffix_loop_exact by (assumption || lia).
    apply OrdinalFacts.token_lt_iff. right. split; [reflexivity|].
    exact Hlt.
Qed.

Lemma chapter_order_by_suffix_length_witness : chapter_lt "225-zz" "225-aaa".
Proof.
  apply (chapter_order_by_suffix_length "225" "zz" "aaa");
    [reflexivity | reflexivity | reflexivity | vm_compute; discriminate
    | cbn; lia].
Defined.

(** ** Ranges *)

Module RangeFacts.
Import Char MoreFacts.

Lemma ok_inj {A : Type} (a b : A) : Ok a = Ok b -> a = b.
Proof. now intros [= ->]. Qed.

Lemma token_le_trans (t1 t2 t3 : token) z1 z2 z3 :
  fst t1 = Num z1 -> fst t2 = Num z2 -> fst t3 = Num z3 ->
  token_le t1 t2 = true -> token_le t2 t3 = true -> token_le t1 t3 = true.
Proof.
  destruct t1 as [b1 n1], t2 as [b2 n2], t3 as [b3 n3]. cbn [fst].
  intros -> -> ->. rewrite !TokenFacts.token_le_iff. lia.
Qed.

Lemma chapter_le_trans c1 c2 c3 :
  chapter_le c1 c2 -> chapter_le c2 c3 -> chapter_le c1 c3.
Proof.
  intros (t1 & t2 & H1 & H2 & H12) (t2' & t3 & H2' & H3 & H23).
  rewrite H2 in H2'. apply ok_inj in H2' as <-.
  destruct (TokenFacts.chapterToken_base _ _ H1) as [z1 E1].
  destruct (TokenFacts.chapterToken_base _ _ H2) as [z2 E2].
  destruct (TokenFacts.chapterToken_base _ _ H3) as [z3 E3].
  exists t1, t3. repeat split; try assumption.
  exact (token_le_trans _ _ _ _ _ _ E1 E2 E3 H12 H23).
Qed.

(** [inRange] answers true exactly for the chapters between the bounds. *)
Lemma inRange_true_iff x a b :
  inRange x a b = Ok true <-> chapter_le a x /\ chapter_le x b.
Proof.
  unfold inRange, chapter_le. split.
  - destruct (chapterToken x) as [|tx]; [discriminate|].
    destruct (chapterToken a) as [|ta]; [discriminate|].
    destruct (chapterToken b) as [|tb]; [discriminate|].
    cbn. intros [= [Hax Hxb]%andb_true_iff].
    split; eexists _, _; repeat split; eassumption.
  - intros [(ta & tx & Ha & Hx & Hax) (tx' & tb & Hx' & Hb & Hxb)].
    rewrite Hx in Hx'. apply ok_inj in Hx' as <-.
    rewrite Hx, Ha, Hb. cbn. now rewrite Hax, Hxb.
Qed.

Lemma inRange_cases x a b :
  (exists t, chapterToken x = Ok t) ->
  (exists t, chapterToken a = Ok t) ->
  (exists t, chapterToken b = Ok t) ->
  exists hit, inRange x a b = Ok hit.
Proof.
  intros [tx Hx] [ta Ha] [tb Hb]. unfold inRange.
  rewrite Hx, Ha, Hb. cbn. eauto.
Qed.

(** An error of the scan names a bound of a range. *)
Lemma scan_error chapter trs e :
  (exists t, chapterToken chapter = Ok t) ->
  scan_ranges chapter trs = throw e ->
  exists bound, In bound (range_bounds trs) /\ e = BadChapterFormat bound.
Proof.
  intros [tx Hx]. induction trs as [|tr trs IH]; [discriminate|].
  cbn [scan_ranges range_bounds flat_map]. unfold inRange. rewrite Hx.
  cbn [bind].
  destruct (chapterToken (Str.toLowerCase (start tr))) as [ea|ta] eqn:Ea.
  { cbn. intros [= <-]. apply MoreTokenFacts.chapterToken_error in Ea.
    eexists. split; [left; reflexivity | exact Ea]. }
  destruct (chapterToken (Str.toLowerCase (end_ tr))) as [eb|tb] eqn:Eb.
  { cbn. intros [= <-]. apply MoreTokenFacts.chapterToken_error in Eb.
    eexists. split; [right; left; reflexivity | exact Eb]. }
  cbn. destruct (_ && _); [discriminate|].
  intros (bound & Hin & ->)%IH. exists bound. split; [|reflexivity].
  right. right. exact Hin.
Qed.

(** A folder that the scan returns is the folder of an entry that
    contains the chapter. *)
Lemma scan_ok chapter trs v :
  scan_ranges chapter trs = Ok v ->
  (v = JNull /\ forallb (fun tr => negb (range_contains chapter tr)) trs = true) \/
  exists tr, In tr trs /\ range_contains chapter tr = true /\ v = folder tr.
Proof.
  revert v. induction trs as [|tr trs IH]; intros v; cbn [scan_ranges forallb].
  - intros [= <-]. now left.
  - assert (Hc : range_contains chapter tr
                 = match inRange chapter (Str.toLowerCase (start tr))
                           (Str.toLowerCase (end_ tr)) with
                   | inr true => true
                   | _ => false
                   end) by reflexivity.
    destruct (inRange chapter _ _) as [e|[|]]; cbn [bind]; [discriminate| |].
    + intros [= <-]. right. exists tr. split; [now left | now split].
    + rewrite Hc. cbn [negb andb].
      intros [Hnull|(tr' & Hin & Hc' & ->)]%IH; [now left|].
      right. exists tr'. split; [now right | now split].
Qed.

(** The chapter of a parsed citation has a token. *)
Lemma parsed_chapter_token input c :
  parseRSA input = Ok c -> exists t, chapterToken (chapter c) = Ok t.
Proof.
  intros (ch & sec & Hch & _ & ->)%MoreParseFacts.parsed_shape.
  destruct (ParseFacts.cite_chapter_shape _ Hch) as (ds & Hd & Hshape).
  cbn [cite chapter].
  assert (Hv : valid_chapter (Str.toLowerCase ch)).
  { destruct Hshape as [->|(l & Hl & ->)]; [now constructor|].
    apply (chapter_suffixed letters ds (String l "")); [assumption|].
    unfold letters. cbn. now rewrite (CharFacts.lower_is_letter _ Hl). }
  destruct (TokenFacts.chapterToken_valid _ Hv) as (z & n & Ht). eauto.
Qed.

Lemma parseRSA_throws input e : parseRSA input = throw e -> e = ParseError.
Proof.
  rewrite (ParseFacts.parseRSA_split _ _ (NormalizeFacts.normalize_eq input)).
  destruct (Direct.rsa_split _) as [[ch sec]|]; [discriminate | now intros [= <-]].
Qed.

Lemma app_inv_head a x y : a +:+ x = a +:+ y -> x = y.
Proof. induction a as [|c a IH]; cbn; [auto | intros [= H]; auto]. Qed.

Lemma app_inv_tail t x : forall y, x +:+ t = y +:+ t -> x = y.
Proof.
  induction x as [|c x IH]; intros [|d y] H; cbn in H.
  - reflexivity.
  - apply (f_equal String.length) in H. cbn in H.
    rewrite StrFacts.length_app in H. lia.
  - apply (f_equal String.length) in H. cbn in H.
    rewrite StrFacts.length_app in H. lia.
  - injection H as -> H. f_equal. now apply IH.
Qed.

End RangeFacts.



(** X13: a range that contains a chapter still contains it when its start
    is moved down or its end is moved up. *)
Theorem inRange_wider_range (x a b a' b' : string) :
  inRange x a b = Ok true -> chapter_le a' a -> chapter_le b b' ->
  inRange x a' b' = Ok true.
Proof.
  intros [Hax Hxb]%RangeFacts.inRange_true_iff Ha Hb.
  apply RangeFacts.inRange_true_iff. split.
  - exact (RangeFacts.chapter_le_trans _ _ _ Ha Hax).
  - exact (RangeFacts.chapter_le_trans _ _ _ Hxb Hb).
Qed.

Lemma inRange_wider_range_witness : inRange "261-a" "260" "270-z" = Ok true.
Proof.
  apply (inRange_wider_range "261-a" "261" "262" "260" "270-z");
    [reflexivity | |]; eexists _, _; repeat split; reflexivity.
Defined.

(** ** The resolver and the URL *)

Module MoreResolverFacts.

(** Entries in front that do not contain the chapter are passed over. *)
Lemma scan_skip chapter pre rest :
  Forall (fun r => inRange chapter (Str.toLowerCase (start r))
                     (Str.toLowerCase (end_ r)) = Ok false) pre ->
  scan_ranges chapter (pre ++ rest) = scan_ranges chapter rest.
Proof.
  induction 1 as [|r pre Hr _ IH]; [reflexivity|].
  cbn [app scan_ranges]. now rewrite Hr.
Qed.

Lemma url_of_section chapter sec f :
  truthy f = true -> sec <> "" ->
  buildUrl chapter (JStr sec) f
  = Ok (BASE +:+ "/" +:+ to_string f +:+ "/" +:+ chapter +:+ "/"
          +:+ chapter +:+ "-" +:+ sec +:+ ".htm").
Proof.
  intros Hf Hs. unfold buildUrl. rewrite Hf.
  destruct sec; [congruence | reflexivity].
Qed.

Lemma url_of_chapter chapter f :
  truthy f = true ->
  buildUrl chapter JNull f
  = Ok (BASE +:+ "/" +:+ to_string f +:+ "/" +:+ chapter +:+ "/"
          +:+ chapter +:+ "-" +:+ "mrg" +:+ ".htm").
Proof. intros Hf. unfold buildUrl. now rewrite Hf. Qed.

Lemma buildUrl_error chapter sec f e :
  buildUrl chapter sec f = throw e -> e = MissingFolder chapter.
Proof.
  unfold buildUrl. destruct (truthy f); cbn; [|now intros [= <-]].
  destruct (truthy sec); discriminate.
Qed.

End MoreResolverFacts.

(** X14: for a chapter that starts with a digit, a folder that
    [folderForChapter] returns comes from the mapping: it is the truthy
    value of the chapter's key, or the folder of a listed range that
    contains the chapter, or else null, and null is returned only when no
    listed range contains the chapter. *)
Theorem folderForChapter_provenance (chapter : string) (p : payload) (v : jsval) :
  starts_with_digit chapter = true ->
  folderForChapter chapter p = Ok v ->
  (truthy v = true /\ direct_lookup chapter p = v) \/
  (exists tr, In tr (default nil (title_ranges p)) /\
              range_contains chapter tr = true /\ v = folder tr) \/
  (v = JNull /\
   forallb (fun tr => negb (range_contains chapter tr))
           (default nil (title_ranges p)) = true).
Proof.
  intros _. unfold folderForChapter.
  destruct (truthy (direct_lookup chapter p)) eqn:E.
  - intros [= <-]. now left.
  - intros [H|H]%RangeFacts.scan_ok; right; [now right | now left].
Qed.

Lemma folderForChapter_provenance_witness :
  (truthy (JStr "title20") = true /\
   direct_lookup "261" scenario_mapping = JStr "title20") \/
  (exists tr, In tr (default nil (title_ranges scenario_mapping)) /\
              range_contains "261" tr = true /\ JStr "title20" = folder tr) \/
  (JStr "title20" = JNull /\
   forallb (fun tr => negb (range_contains "261" tr))
           (default nil (title_ranges scenario_mapping)) = true).
Proof.
  apply (folderForChapter_provenance "261" scenario_mapping); reflexivity.
Defined.

(** X15: the scan stops at the first listed range with a bound that has
    no token.  When the chapter has a token, the direct value is not
    truthy and the ranges in front answer false, the resolver fails with
    BadChapterFormat for the lower-cased start, or for the lower-cased end
    when the start has a token; ranges behind are not looked at. *)
Theorem folderForChapter_malformed_bound
    (chapter : string) (p : payload) (pre post : list title_range)
    (tr : title_range) :
  (exists t, chapterToken chapter = Ok t) ->
  truthy (direct_lookup chapter p) = false ->
  default nil (title_ranges p) = pre ++ tr :: post ->
  Forall (fun r => inRange chapter (Str.toLowerCase (start r))
                     (Str.toLowerCase (end_ r)) = Ok false) pre ->
  (chapterToken (Str.toLowerCase (start tr))
   = throw (BadChapterFormat (Str.toLowerCase (start tr))) ->
   folderForChapter chapter p
   = throw (BadChapterFormat (Str.toLowerCase (start tr)))) /\
  ((exists t, chapterToken (Str.toLowerCase (start tr)) = Ok t) ->
   chapterToken (Str.toLowerCase (end_ tr))
   = throw (BadChapterFormat (Str.toLowerCase (end_ tr))) ->
   folderForChapter chapter p
   = throw (BadChapterFormat (Str.toLowerCase (end_ tr)))).
Proof.
  intros [tx Hx] Hd Hp Hpre.
  rewrite (ResolverFacts.folderForChapter_scan _ _ Hd), Hp,
    (MoreResolverFacts.scan_skip _ _ _ Hpre).
  cbn [scan_ranges]. unfold inRange. rewrite Hx. cbn [bind]. split.
  - now intros ->.
  - intros [ta ->] ->. reflexivity.
Qed.

Lemma folderForChapter_malformed_bound_witness :
  folderForChapter "261"
    {| chapter_to_title := None;
       title_ranges :=
         Some ({| start := "1"; end_ := "100"; folder := JStr "title1" |}
               :: {| start := "200"; end_ := "2x0"; folder := JStr "title2" |}
               :: {| start := "260"; end_ := "265"; folder := JStr "title20" |}
               :: nil) |}
  = throw (BadChapterFormat "2x0").
Proof.
  pose proof
    (folderForChapter_malformed_bound "261"
       {| chapter_to_title := None;
          title_ranges :=
            Some ({| start := "1"; end_ := "100"; folder := JStr "title1" |}
                  :: {| start := "200"; end_ := "2x0"; folder := JStr "title2" |}
                  :: {| start := "260"; end_ := "265"; folder := JStr "title20" |}
                  :: nil) |}
       ({| start := "1"; end_ := "100"; folder := JStr "title1" |} :: nil)
       ({| start := "260"; end_ := "265"; folder := JStr "title20" |} :: nil)
       {| start := "200"; end_ := "2x0"; folder := JStr "title2" |}) as H.
  apply H; try reflexivity;
    first [ eexists; reflexivity | repeat constructor ].
Defined.

(** X16: with a folder, two different non-empty sections give two
    different URLs, and the URL of a non-empty section is the URL of the
    whole chapter exactly for the section mrg. *)
Theorem buildUrl_section_injective (chapter sec1 sec2 : string) (f : jsval) :
  truthy f = true -> sec1 <> "" -> sec2 <> "" ->
  (buildUrl chapter (JStr sec1) f = buildUrl chapter (JStr sec2) f
   -> sec1 = sec2) /\
  (buildUrl chapter (JStr sec1) f = buildUrl chapter JNull f
   <-> sec1 = "mrg").
Proof.
  intros Hf H1 H2.
  rewrite !MoreResolverFacts.url_of_section,
    MoreResolverFacts.url_of_chapter by assumption.
  split; [|split].
  - intros H%RangeFacts.ok_inj.
    do 8 apply RangeFacts.app_inv_head in H.
    now apply RangeFacts.app_inv_tail in H.
  - intros H%RangeFacts.ok_inj.
    do 8 apply RangeFacts.app_inv_head in H.
    now apply RangeFacts.app_inv_tail in H.
  - now intros ->.
Qed.

Lemma buildUrl_section_injective_witness :
  buildUrl "225-a" (JStr "mrg") (JStr "title19")
  = buildUrl "225-a" JNull (JStr "title19").
Proof.
  apply (proj2 (buildUrl_section_injective "225-a" "mrg" "mrg" (JStr "title19")
                  eq_refl ltac:(discriminate) ltac:(discriminate))).
  reflexivity.
Defined.

(** X17: with a mapping of the documented shape (an object whose
    [title_ranges], when present, is a list of entries with string
    bounds), the resolution of an input fails in three ways only: with
    the ParseError, with MissingFolder for the parsed chapter, or with
    BadChapterFormat for a lower-cased bound of a listed range.  The
    chapter of the user is never the cause of a BadChapterFormat. *)
Theorem resolve_errors (input : jsval) (p : payload) (e : exn) :
  resolve input p = throw e ->
  e = ParseError \/
  exists c, parseRSA input = Ok c /\
    (e = MissingFolder (chapter c) \/
     exists bound, In bound (range_bounds (default nil (title_ranges p))) /\
                   e = BadChapterFormat bound).
Proof.
  unfold resolve. destruct (parseRSA input) as [e0|c] eqn:Hp; cbn [bind].
  - intros [= <-]. left. exact (RangeFacts.parseRSA_throws input e0 Hp).
  - intros H. right. exists c. split; [reflexivity|].
    destruct (folderForChapter (chapter c) p) as [e1|f] eqn:Hf; cbn [bind] in H.
    + injection H as <-. right. unfold folderForChapter in Hf.
      destruct (truthy _); [discriminate|].
      exact (RangeFacts.scan_error _ _ _
               (RangeFacts.parsed_chapter_token input c Hp) Hf).
    + left. now apply MoreResolverFacts.buildUrl_error in H.
Qed.

Lemma resolve_errors_witness :
  MissingFolder "265-b" = ParseError \/
  exists c, parseRSA (JStr "265-b") = Ok c /\
    (MissingFolder "265-b" = MissingFolder (chapter c) \/
     exists bound,
       In bound (range_bounds (default nil (title_ranges scenario_mapping))) /\
       MissingFolder "265-b" = BadChapterFormat bound).
Proof.
  apply (resolve_errors (JStr "265-b") scenario_mapping). reflexivity.
Defined.

(** ** One run of [go] *)

Module GoFacts.

Lemma go_parsed m v o c :
  parseRSA (JStr v) = Ok c ->
  go m v o
  = SetText "" :: Fetch ::
    match (p <- loadMapping o ;;
           f <- folderForChapter (chapter c) p ;;
           buildUrl (chapter c) (section c) f) with
    | inl e => SetText (error_text m e) :: nil
    | inr url => SetHtml (link_html url) :: Open url "_blank" :: nil
    end.
Proof. unfold go. now intros ->. Qed.

Lemma go_unparsed m v o :
  (forall c, parseRSA (JStr v) <> Ok c) ->
  go m v o
  = SetText "" :: SetText "Could not parse. Try '225-A:24' or 'RSA 225-A'."
      :: nil.
Proof.
  intros Hno. unfold go.
  destruct (parseRSA (JStr v)) as [e|c] eqn:Hp; [|now destruct (Hno c)].
  now rewrite (RangeFacts.parseRSA_throws _ _ Hp).
Qed.

(** The steps after the parser, as in [resolve]. *)
Lemma resolve_parsed v c p :
  parseRSA (JStr v) = Ok c ->
  resolve (JStr v) p
  = (f <- folderForChapter (chapter c) p ;;
     buildUrl (chapter c) (section c) f).
Proof. unfold resolve. now intros ->. Qed.

End GoFacts.

(** X18: [go] fetches the mapping exactly when the input parses.  For an
    input that does not parse, one run clears the output and writes the
    parse message as text, and does nothing else, whatever the fetch
    would have given. *)
Theorem go_fetches_iff_parsed (m v : string) (o : fetch_outcome) :
  (In Fetch (go m v o) <-> exists c, parseRSA (JStr v) = Ok c) /\
  ((forall c, parseRSA (JStr v) <> Ok c) ->
   go m v o
   = SetText "" :: SetText "Could not parse. Try '225-A:24' or 'RSA 225-A'."
       :: nil).
Proof.
  split; [|apply GoFacts.go_unparsed].
  destruct (parseRSA (JStr v)) as [e|c] eqn:Hp.
  - rewrite GoFacts.go_unparsed by (intros c; rewrite Hp; discriminate).
    split; [intros [H|[H|[]]]; discriminate | intros [c [=]]].
  - rewrite (GoFacts.go_parsed _ _ _ _ Hp).
    split; [eauto | intros _; right; now left].
Qed.

Lemma go_fetches_iff_parsed_witness :
  go "" "not a statute" (Response true (Ok scenario_mapping))
  = SetText "" :: SetText "Could not parse. Try '225-A:24' or 'RSA 225-A'."
      :: nil.
Proof.
  apply (proj2 (go_fetches_iff_parsed "" "not a statute"
                  (Response true (Ok scenario_mapping)))).
  intros c. discriminate.
Defined.

(** X19: one run of [go] writes the link and opens a window exactly when
    the mapping loads and the input resolves to a URL: it then clears the
    output, fetches, writes the link to that URL and opens that URL once,
    in a new window.  In no other run is a window opened or markup
    written: every failure is written as text. *)
Theorem go_opens_resolved (m v : string) (o : fetch_outcome) (url : string) :
  ((exists p, loadMapping o = Ok p /\ resolve (JStr v) p = Ok url)
   <-> go m v o
       = SetText "" :: Fetch :: SetHtml (link_html url)
           :: Open url "_blank" :: nil) /\
  (forall u t, In (Open u t) (go m v o) ->
     t = "_blank" /\
     go m v o
     = SetText "" :: Fetch :: SetHtml (link_html u) :: Open u "_blank" :: nil) /\
  (forall h, In (SetHtml h) (go m v o) ->
     exists u, h = link_html u /\
       go m v o
       = SetText "" :: Fetch :: SetHtml (link_html u) :: Open u "_blank" :: nil).
Proof.
  destruct (parseRSA (JStr v)) as [e|c] eqn:Hp.
  - rewrite GoFacts.go_unparsed by (intros c; rewrite Hp; discriminate).
    split; [|split].
    + split; [|discriminate].
      intros (p & _ & H). unfold resolve in H. rewrite Hp in H. discriminate H.
    + intros u t [H|[H|[]]]; discriminate.
    + intros h [H|[H|[]]]; discriminate.
  - rewrite (GoFacts.go_parsed _ _ _ _ Hp).
    destruct (loadMapping o) as [e|p] eqn:Hl; cbn [bind].
    + split; [|split].
      * split; [intros (p & [=] & _) | discriminate].
      * intros u t [H|[H|[H|[]]]]; discriminate.
      * intros h [H|[H|[H|[]]]]; discriminate.
    + rewrite <- (GoFacts.resolve_parsed _ _ p Hp).
      destruct (resolve (JStr v) p) as [e|url'] eqn:Hr.
      * split; [|split].
        -- split; [|discriminate].
           intros (p' & [= <-] & H). rewrite Hr in H. discriminate H.
        -- intros u t [H|[H|[H|[]]]]; discriminate.
        -- intros h [H|[H|[H|[]]]]; discriminate.
      * split; [|split].
        -- split.
           ++ intros (p' & [= <-] & H). rewrite Hr in H. now injection H as ->.
           ++ intros H. injection H as _ ->. exists p. now split.
        -- intros u t [H|[H|[H|[H|[]]]]]; try discriminate.
           now injection H as <- <-.
        -- intros h [H|[H|[H|[H|[]]]]]; try discriminate.
           exists url'. split; [now injection H as <- | reflexivity].
Qed.

Lemma go_opens_resolved_witness :
  go "" "RSA 261" (Response true (Ok scenario_mapping))
  = SetText "" :: Fetch
      :: SetHtml (link_html "https://gc.nh.gov/rsa/html/title20/261/261-mrg.htm")
      :: Open "https://gc.nh.gov/rsa/html/title20/261/261-mrg.htm" "_blank"
      :: nil.
Proof.
  apply (proj1 (go_opens_resolved "" "RSA 261"
                  (Response true (Ok scenario_mapping))
                  "https://gc.nh.gov/rsa/html/title20/261/261-mrg.htm")).
  exists scenario_mapping. split; reflexivity.
Defined.

(** X21: what [go] shows when the mapping does not load, for an input
    that parses.  A response that is not OK gives the text "Could not
    load mapping JSON." whatever its body; a fetch that rejects, and a
    body that is not JSON, give the message of their own error. *)
Theorem go_load_failure (m v msg : string) (c : citation) :
  parseRSA (JStr v) = Ok c -> msg <> "" ->
  (forall json,
      go m v (Response false json)
      = SetText "" :: Fetch :: SetText "Could not load mapping JSON." :: nil) /\
  go m v (Rejected (Error msg))
  = SetText "" :: Fetch :: SetText msg :: nil /\
  go m v (Response true (throw (Error msg)))
  = SetText "" :: Fetch :: SetText msg :: nil.
Proof.
  intros Hp Hmsg. rewrite !(GoFacts.go_parsed _ _ _ _ Hp). cbn.
  destruct msg; [congruence|]. repeat split.
  intros json. now rewrite (GoFacts.go_parsed _ _ _ _ Hp).
Qed.

Lemma go_load_failure_witness :
  go "" "RSA 261" (Response false (Ok scenario_mapping))
  = SetText "" :: Fetch :: SetText "Could not load mapping JSON." :: nil.
Proof.
  apply (proj1 (go_load_failure "" "RSA 261" "Failed to fetch"
                  {| chapter := "261"; section := JNull |}
                  eq_refl ltac:(discriminate))).
Defined.
